(** * Radio_interferometry/p1.ipynb: star formation rate to molecular gas mass

    A shallow embedding of the notebook's code cells and the properties of
    the conversion chain SFR -> L_FIR -> L'_CO -> observed frequency ->
    lensed CO(3-2) luminosity -> flux density -> H2 mass.

    Numbers.  The value of a finite float is a real number: binary64
    rounding is idealised away, and so is a value that leaves the binary64
    range where that changes the value only.  What is kept is the part of
    the float semantics that decides how the code runs: a Python [float]
    division by zero raises [ZeroDivisionError], a Python [float] power
    whose result exceeds the largest binary64 number raises
    [OverflowError], while numpy scalars and arrays never raise and produce
    [nan] or an infinity (with a warning only).  Zero has no sign in this
    model; a zero divisor is taken as [+0.0], which is what the notebook's
    expressions produce ([dl*dl], [1+redshift], the literal [0]).

    Types.  [sfr], [kappa], [redshift] and what Python computes from them
    alone are Python floats (the notebook's [sfr] is the [int] 30, which
    the division converts); the inputs are finite binary64 values.  The
    two values read from astropy,
    [con.L_sun.value] and [cosmo.luminosity_distance(redshift).value], are
    numpy scalars, and so is everything computed from them, from
    [np.log10] or from an array. *)

From Stdlib Require Import Reals Lra Lia ZArith List String.
From stdpp Require Import base gmap strings.

Local Open Scope R_scope.

(** ** numpy.float64 *)

Inductive float64 : Type :=
| Finite (r : R)
| PosInf
| NegInf
| NaN.

Inductive sign : Type := Neg | Zero | Pos.

Definition sgn (r : R) : sign :=
  match total_order_T r 0 with
  | inleft (left _) => Neg
  | inleft (right _) => Zero
  | inright _ => Pos
  end.


Module np.

(** [np.log10]: [nan] below zero, [-inf] at zero. *)
Definition log10 (x : float64) : float64 :=
  match x with
  | Finite r =>
      match sgn r with
      | Pos => Finite (Rlog 10 r)
      | Zero => NegInf
      | Neg => NaN
      end
  | PosInf => PosInf
  | NegInf => NaN
  | NaN => NaN
  end.

(** [x - y] on numpy scalars. *)
Definition subtract (x y : float64) : float64 :=
  match x, y with
  | NaN, _ | _, NaN => NaN
  | Finite a, Finite b => Finite (a - b)
  | PosInf, PosInf | NegInf, NegInf => NaN
  | PosInf, _ | _, NegInf => PosInf
  | NegInf, _ | _, PosInf => NegInf
  end.

(** [x * y] on numpy scalars. *)
Definition multiply (x y : float64) : float64 :=
  match x, y with
  | NaN, _ | _, NaN => NaN
  | Finite a, Finite b => Finite (a * b)
  | Finite a, PosInf | PosInf, Finite a =>
      match sgn a with Pos => PosInf | Neg => NegInf | Zero => NaN end
  | Finite a, NegInf | NegInf, Finite a =>
      match sgn a with Pos => NegInf | Neg => PosInf | Zero => NaN end
  | PosInf, PosInf | NegInf, NegInf => PosInf
  | PosInf, NegInf | NegInf, PosInf => NegInf
  end.

(** [x / y] on numpy scalars: a zero divisor gives an infinity or [nan]. *)
Definition true_divide (x y : float64) : float64 :=
  match x, y with
  | NaN, _ | _, NaN => NaN
  | Finite a, Finite b =>
      match sgn b with
      | Zero =>
          match sgn a with Pos => PosInf | Neg => NegInf | Zero => NaN end
      | _ => Finite (a / b)
      end
  | Finite _, _ => Finite 0
  | PosInf, Finite b =>
      match sgn b with Neg => NegInf | _ => PosInf end
  | NegInf, Finite b =>
      match sgn b with Neg => PosInf | _ => NegInf end
  | _, _ => NaN
  end.

(** [10 ** y] with [y] a numpy scalar. *)
Definition power10 (y : float64) : float64 :=
  match y with
  | Finite r => Finite (Rpower 10 r)
  | PosInf => PosInf
  | NegInf => Finite 0
  | NaN => NaN
  end.

End np.

(** ** Python exceptions and results *)

Inductive exn : Type :=
| ZeroDivisionError
| NameError (name : string)
| TypeError (name : string)
| IndexError
| OverflowError
| DomainError.  (* the error kind of the specification; no cell constructs it *)

Inductive result (A : Type) : Type :=
| Ok (a : A)
| Raise (e : exn).
Arguments Ok {A} a.
Arguments Raise {A} e.

(** [x / y] on Python floats. *)
Definition float_truediv (x y : R) : result R :=
  if Req_dec_T y 0 then Raise ZeroDivisionError else Ok (x / y).

(** The largest binary64 number, [sys.float_info.max]. *)
Definition float_max : R := (2 - / 2 ^ 52) * 2 ^ 1023.

(** [x ** n] on a Python float, [n] a literal. *)
Definition float_pow (x : R) (n : nat) : result R :=
  if Rlt_dec float_max (Rabs (x ^ n)) then Raise OverflowError
  else Ok (x ^ n).

(** The smallest positive normal binary64 number, [sys.float_info.min]. *)
Definition float_min : R := / 2 ^ 1022.

(** [(1+redshift)**3] does not overflow. *)
Definition cube_in_range (redshift : R) : Prop :=
  Rabs ((1 + redshift) ^ 3) <= float_max.

(** ** The expressions of the code cells

    One definition per assigned variable, a function of the variables the
    right-hand side reads; literals that the pipeline stages take as
    arguments ([0.6], [4.3], [200], [4]) are parameters. *)

(** [lfir = sfr/kappa] *)
Definition lfir (sfr kappa : R) : result R := float_truediv sfr kappa.

(** [lsun = ((con.L_sun).value)*(1e7)] *)
Definition lsun (L_sun_value : R) : float64 :=
  np.multiply (Finite L_sun_value) (Finite 1e7).

(** [lfir_sun = lfir/lsun], a Python float over a numpy scalar. *)
Definition lfir_sun (lfir : R) (lsun : float64) : float64 :=
  np.true_divide (Finite lfir) lsun.

(** [logco = (np.log10(lfir_sun)-0.53)/1.13] *)
Definition logco (lfir_sun : float64) : float64 :=
  np.true_divide
    (np.subtract (np.log10 lfir_sun) (Finite 0.53)) (Finite 1.13).

(** [lco_diff_units = 10**(logco)] *)
Definition lco_diff_units (logco : float64) : float64 := np.power10 logco.

(** [rest_frame = np.array([...])] and [lines = np.array([...])] *)
Definition rest_frame : list float64 :=
  map Finite
    [115.271204; 230.537990; 345.795989; 461.040770; 576.267904; 691.473090;
     806.651806].

Definition lines : list string :=
  ["CO10"; "CO21"; "CO32"; "C043"; "CO54"; "CO65"; "CO75"]%string.

(** [obs_freq = rest_frame/(1+redshift)] *)
Definition obs_freq (rest_frame : list float64) (redshift : R)
  : list float64 :=
  map (fun f => np.true_divide f (Finite (1 + redshift))) rest_frame.

(** [lco_32 = lco_diff_units*0.6] *)
Definition lco_32 (lco_diff_units : float64) (ratio : R) : float64 :=
  np.multiply lco_diff_units (Finite ratio).

(** [lco_32_lens = 4.3*lco_32] *)
Definition lco_32_lens (magnification : R) (lco_32 : float64) : float64 :=
  np.multiply (Finite magnification) lco_32.

(** [freq1 = obs_freq[2]] *)
Definition freq1 (obs_freq : list float64) : result float64 :=
  match nth_error obs_freq 2 with
  | Some f => Ok f
  | None => Raise IndexError
  end.

(** [aa = (lco_32_lens*freq1*freq1*((1+redshift)**3))], given the value
    [cube] of the Python power [(1+redshift)**3]. *)
Definition aa (lco_32_lens freq1 : float64) (cube : R) : float64 :=
  np.multiply (np.multiply (np.multiply lco_32_lens freq1) freq1)
    (Finite cube).

(** [bb = dl*dl*(3.25e7)] *)
Definition bb (dl : float64) : float64 :=
  np.multiply (np.multiply dl dl) (Finite 3.25e7).

(** [flux_s = aa/bb] *)
Definition flux_s (aa bb : float64) : float64 := np.true_divide aa bb.

(** [flux_density = flux_s/200] *)
Definition flux_density (flux_s : float64) (dispersion : R) : float64 :=
  np.true_divide flux_s (Finite dispersion).

(** [mass_h2 = lco_diff_units*4] *)
Definition mass_h2 (lco_diff_units : float64) (alpha_CO : R) : float64 :=
  np.multiply lco_diff_units (Finite alpha_CO).

(** ** The notebook as a program over the kernel's namespace

    A code cell reads and assigns global variables of the running kernel.
    Values are tagged by their Python type: a Python [float] (finite, a
    real), a Python [int], a numpy scalar, a numpy array of floats, an
    array of strings. *)

Inductive value : Type :=
| PyFloat (r : R)
| PyInt (n : Z)
| NpFloat (x : float64)
| NpArray (a : list float64)
| StrArray (a : list string).

Abbreviation namespace := (gmap string value).

(** What the cells take from outside: the literals of the scenario, the
    solar luminosity [con.L_sun.value] (in W) and the cosmology's
    [luminosity_distance(z).value] (in Mpc). *)
Module Inputs.
Record t : Type := make {
  sfr : R;
  kappa : R;
  L_sun_value : R;
  redshift : R;
  ratio : R;
  magnification : R;
  luminosity_distance : R -> R;
  velocity_dispersion : R;
  alpha_CO : R
}.
End Inputs.

(** State and exceptions: a computation runs in a namespace and either
    raises or returns a value and the updated namespace. *)
Definition cell (A : Type) : Type := namespace -> result (A * namespace).

Definition ret {A} (a : A) : cell A := fun ns => Ok (a, ns).

Definition bind {A B} (c : cell A) (k : A -> cell B) : cell B :=
  fun ns =>
    match c ns with
    | Ok (a, ns') => k a ns'
    | Raise e => Raise e
    end.

Definition lift {A} (r : result A) : cell A :=
  fun ns =>
    match r with
    | Ok a => Ok (a, ns)
    | Raise e => Raise e
    end.

Definition assign (name : string) (v : value) : cell unit :=
  fun ns => Ok (tt, <[name := v]> ns).

Definition load_float (name : string) : cell R :=
  fun ns =>
    match ns !! name with
    | Some (PyFloat r) => Ok (r, ns)
    | Some _ => Raise (TypeError name)
    | None => Raise (NameError name)
    end.

Definition load_np (name : string) : cell float64 :=
  fun ns =>
    match ns !! name with
    | Some (NpFloat x) => Ok (x, ns)
    | Some _ => Raise (TypeError name)
    | None => Raise (NameError name)
    end.

Definition load_array (name : string) : cell (list float64) :=
  fun ns =>
    match ns !! name with
    | Some (NpArray a) => Ok (a, ns)
    | Some _ => Raise (TypeError name)
    | None => Raise (NameError name)
    end.

Definition load_int (name : string) : cell Z :=
  fun ns =>
    match ns !! name with
    | Some (PyInt n) => Ok (n, ns)
    | Some _ => Raise (TypeError name)
    | None => Raise (NameError name)
    end.

Definition load_strings (name : string) : cell (list string) :=
  fun ns =>
    match ns !! name with
    | Some (StrArray a) => Ok (a, ns)
    | Some _ => Raise (TypeError name)
    | None => Raise (NameError name)
    end.

(** [a[i]] on an array: a negative index counts from the end. *)
Definition getitem {A} (a : list A) (i : Z) : result A :=
  let k := if (i <? 0)%Z then (Z.of_nat (length a) + i)%Z else i in
  if (k <? 0)%Z then Raise IndexError
  else
    match nth_error a (Z.to_nat k) with
    | Some x => Ok x
    | None => Raise IndexError
    end.

Declare Scope cell_scope.
Delimit Scope cell_scope with cell.
Notation "x <- c ;; k" := (bind c (fun x => k))
  (at level 100, c at next level, k at level 200, right associativity)
  : cell_scope.
Notation "c ;; k" := (bind c (fun _ => k))
  (at level 100, k at level 200, right associativity) : cell_scope.
Notation "name ::= v" := (assign name v) (at level 80) : cell_scope.

Local Open Scope cell_scope.

(** [for name in range: body], with [range] already evaluated. *)
Fixpoint for_range (name : string) (range : list nat) (body : cell unit)
  : cell unit :=
  match range with
  | [] => ret tt
  | k :: range' =>
      name ::= PyInt (Z.of_nat k) ;; body ;; for_range name range' body
  end.

Local Close Scope cell_scope.

Section Cells.
Variable i : Inputs.t.
Local Open Scope cell_scope.
Local Open Scope string_scope.

(** In [2]: [sfr], [kappa], [lfir]. *)
Definition cell_2 : cell unit :=
  "sfr" ::= PyFloat (Inputs.sfr i) ;;
  "kappa" ::= PyFloat (Inputs.kappa i) ;;
  sfr <- load_float "sfr" ;;
  kappa <- load_float "kappa" ;;
  v <- lift (lfir sfr kappa) ;;
  "lfir" ::= PyFloat v.

(** In [3]: [lsun], [lfir_sun], [logco], [lco_diff_units]. *)
Definition cell_3 : cell unit :=
  "lsun" ::= NpFloat (lsun (Inputs.L_sun_value i)) ;;
  lfir <- load_float "lfir" ;;
  lsun <- load_np "lsun" ;;
  "lfir_sun" ::= NpFloat (lfir_sun lfir lsun) ;;
  lfir_sun <- load_np "lfir_sun" ;;
  "logco" ::= NpFloat (logco lfir_sun) ;;
  logco <- load_np "logco" ;;
  "lco_diff_units" ::= NpFloat (lco_diff_units logco).

(** [print(lines[i] + '\t' + str(obs_freq[i]))]: the two elements are
    read; the line printed is not kept. *)
Definition print_row : cell unit :=
  lines <- load_strings "lines" ;;
  i <- load_int "i" ;;
  _ <- lift (getitem lines i) ;;
  obs_freq <- load_array "obs_freq" ;;
  i <- load_int "i" ;;
  _ <- lift (getitem obs_freq i) ;;
  ret tt.

(** [for i in range(len(lines)): print(...)] *)
Definition print_loop : cell unit :=
  lines <- load_strings "lines" ;;
  for_range "i" (seq 0 (length lines)) print_row.

(** In [4]: [lines], [rest_frame], [redshift], [obs_freq], then the loop
    that prints the table, which binds [i]. *)
Definition cell_4 : cell unit :=
  "lines" ::= StrArray lines ;;
  "rest_frame" ::= NpArray rest_frame ;;
  "redshift" ::= PyFloat (Inputs.redshift i) ;;
  rest_frame <- load_array "rest_frame" ;;
  redshift <- load_float "redshift" ;;
  "obs_freq" ::= NpArray (obs_freq rest_frame redshift) ;;
  print_loop.

(** In [5]: [lco_32]. *)
Definition cell_5 : cell unit :=
  lco_diff_units <- load_np "lco_diff_units" ;;
  "lco_32" ::= NpFloat (lco_32 lco_diff_units (Inputs.ratio i)).

(** In [6]: [lco_32_lens]. *)
Definition cell_6 : cell unit :=
  lco_32 <- load_np "lco_32" ;;
  "lco_32_lens" ::= NpFloat (lco_32_lens (Inputs.magnification i) lco_32).

(** In [7]: [dl], [freq1], [aa], [bb], [flux_s]. *)
Definition cell_7 : cell unit :=
  redshift <- load_float "redshift" ;;
  "dl" ::= NpFloat (Finite (Inputs.luminosity_distance i redshift)) ;;
  obs_freq <- load_array "obs_freq" ;;
  v <- lift (freq1 obs_freq) ;;
  "freq1" ::= NpFloat v ;;
  lco_32_lens <- load_np "lco_32_lens" ;;
  freq1 <- load_np "freq1" ;;
  redshift <- load_float "redshift" ;;
  cube <- lift (float_pow (1 + redshift) 3) ;;
  "aa" ::= NpFloat (aa lco_32_lens freq1 cube) ;;
  dl <- load_np "dl" ;;
  "bb" ::= NpFloat (bb dl) ;;
  aa <- load_np "aa" ;;
  bb <- load_np "bb" ;;
  "flux_s" ::= NpFloat (flux_s aa bb).

(** In [8]: [flux_density]. *)
Definition cell_8 : cell unit :=
  flux_s <- load_np "flux_s" ;;
  "flux_density" ::=
    NpFloat (flux_density flux_s (Inputs.velocity_dispersion i)).

(** In [9]: [mass_h2]. *)
Definition cell_9 : cell unit :=
  lco_diff_units <- load_np "lco_diff_units" ;;
  "mass_h2" ::= NpFloat (mass_h2 lco_diff_units (Inputs.alpha_CO i)).

(** Run All. *)
Definition run_all : cell unit :=
  cell_2 ;; cell_3 ;; cell_4 ;; cell_5 ;; cell_6 ;; cell_7 ;; cell_8 ;;
  cell_9.

End Cells.

(** ** The conversion pipeline as a function of its inputs

    The values the cells compute, in the order of assignment. *)

Module Derived.
Record t : Type := make {
  lfir : R;
  lsun : float64;
  lfir_sun : float64;
  logco : float64;
  lco_diff_units : float64;
  obs_freq : list float64;
  lco_32 : float64;
  lco_32_lens : float64;
  dl : float64;
  freq1 : float64;
  aa : float64;
  bb : float64;
  flux_s : float64;
  flux_density : float64;
  mass_h2 : float64
}.
End Derived.

Definition pipeline (i : Inputs.t) : result Derived.t :=
  match lfir (Inputs.sfr i) (Inputs.kappa i) with
  | Raise e => Raise e
  | Ok v_lfir =>
  let v_lsun := lsun (Inputs.L_sun_value i) in
  let v_lfir_sun := lfir_sun v_lfir v_lsun in
  let v_logco := logco v_lfir_sun in
  let v_lco := lco_diff_units v_logco in
  let v_obs := obs_freq rest_frame (Inputs.redshift i) in
  let v_32 := lco_32 v_lco (Inputs.ratio i) in
  let v_lens := lco_32_lens (Inputs.magnification i) v_32 in
  let v_dl := Finite (Inputs.luminosity_distance i (Inputs.redshift i)) in
  match freq1 v_obs with
  | Raise e => Raise e
  | Ok v_freq1 =>
  match float_pow (1 + Inputs.redshift i) 3 with
  | Raise e => Raise e
  | Ok cube =>
  let v_aa := aa v_lens v_freq1 cube in
  let v_bb := bb v_dl in
  let v_flux_s := flux_s v_aa v_bb in
  Ok (Derived.make v_lfir v_lsun v_lfir_sun v_logco v_lco v_obs v_32 v_lens
        v_dl v_freq1 v_aa v_bb v_flux_s
        (flux_density v_flux_s (Inputs.velocity_dispersion i))
        (mass_h2 v_lco (Inputs.alpha_CO i)))
  end end end.

(** The namespace after Run All: every variable the cells assign, bound to
    its value, over whatever the kernel held before. *)
Definition store (i : Inputs.t) (d : Derived.t) (ns : namespace) : namespace :=
  <["mass_h2" := NpFloat (Derived.mass_h2 d)]>
  (<["flux_density" := NpFloat (Derived.flux_density d)]>
  (<["flux_s" := NpFloat (Derived.flux_s d)]>
  (<["bb" := NpFloat (Derived.bb d)]>
  (<["aa" := NpFloat (Derived.aa d)]>
  (<["freq1" := NpFloat (Derived.freq1 d)]>
  (<["dl" := NpFloat (Derived.dl d)]>
  (<["lco_32_lens" := NpFloat (Derived.lco_32_lens d)]>
  (<["lco_32" := NpFloat (Derived.lco_32 d)]>
  (<["i" := PyInt 6]>
  (<["obs_freq" := NpArray (Derived.obs_freq d)]>
  (<["redshift" := PyFloat (Inputs.redshift i)]>
  (<["rest_frame" := NpArray rest_frame]>
  (<["lines" := StrArray lines]>
  (<["lco_diff_units" := NpFloat (Derived.lco_diff_units d)]>
  (<["logco" := NpFloat (Derived.logco d)]>
  (<["lfir_sun" := NpFloat (Derived.lfir_sun d)]>
  (<["lsun" := NpFloat (Derived.lsun d)]>
  (<["lfir" := PyFloat (Derived.lfir d)]>
  (<["kappa" := PyFloat (Inputs.kappa i)]>
  (<["sfr" := PyFloat (Inputs.sfr i)]> ns)))))))))))))))))))).

(** The names the cells assign. *)
Definition assigned : list string :=
  ["sfr"; "kappa"; "lfir"; "lsun"; "lfir_sun"; "logco"; "lco_diff_units";
   "lines"; "rest_frame"; "redshift"; "obs_freq"; "i"; "lco_32";
   "lco_32_lens";
   "dl"; "freq1"; "aa"; "bb"; "flux_s"; "flux_density"; "mass_h2"]%string.

(** What a run leaves for the [assigned] names, or the exception. *)
Definition outputs (r : result (unit * namespace))
  : result (list (option value)) :=
  match r with
  | Ok (_, ns) => Ok (map (fun name => ns !! name) assigned)
  | Raise e => Raise e
  end.

(** ** The stages of the pipeline

    The operations the specification names, as compositions of the cells'
    expressions. *)

Definition on_result {A B} (f : A -> B) (r : result A) : result B :=
  match r with
  | Ok a => Ok (f a)
  | Raise e => Raise e
  end.

Module Stage.

Definition infrared_luminosity (sfr kappa : R) : result R := lfir sfr kappa.

(** [lfir_sun], [logco] and [lco_diff_units] of In [3], with [lsun] given
    in erg/s.  Nothing in it raises: the division is numpy's. *)
Definition co_luminosity_10 (L_IR L_sun : R) : result float64 :=
  Ok (lco_diff_units (logco (lfir_sun L_IR (Finite L_sun)))).

Definition select_observing_line (redshift : R) : list float64 :=
  obs_freq rest_frame redshift.

Definition co_luminosity_line (L_CO10 : float64) (ratio : R) : float64 :=
  lco_32 L_CO10 ratio.

Definition apply_lensing (L : float64) (magnification : R) : float64 :=
  lco_32_lens magnification L.

(** [aa], [bb] and [flux_s] of In [7]: the value of [aa/bb].  Where
    [(1+redshift)**3] exceeds [float_max] the cell raises instead, see
    [cell_7]. *)
Definition flux_density_integrated
  (L_lensed freq_obs : float64) (redshift distance : R) : float64 :=
  flux_s (aa L_lensed freq_obs ((1 + redshift) ^ 3)) (bb (Finite distance)).

Definition flux_density (S_dV : float64) (velocity_dispersion : R)
  : float64 :=
  flux_density S_dV velocity_dispersion.

Definition h2_mass (L_CO10 : float64) (alpha_CO : R) : float64 :=
  mass_h2 L_CO10 alpha_CO.

End Stage.

(** The reference scenario: the literals of the notebook. *)
Definition notebook (L_sun_value : R) (luminosity_distance : R -> R)
  : Inputs.t :=
  Inputs.make 30 4.5e-44 L_sun_value 1.036 0.6 4.3 luminosity_distance 200 4.

(** The H2 mass a run leaves, or the exception. *)
Definition h2_of (r : result (unit * namespace)) : result (option value) :=
  match r with
  | Ok (_, ns) => Ok (ns !! "mass_h2")
  | Raise e => Raise e
  end.

(** The CO(1-0) luminosity of the Carilli and Walter relation, for an
    infrared luminosity [y] in solar units. *)
Definition carilli_walter (y : R) : R :=
  Rpower 10 ((Rlog 10 y - 0.53) / 1.13).


(** The numpy scalars that follow from the logarithm. *)
Definition after_log10 : list string :=
  ["logco"; "lco_diff_units"; "lco_32"; "lco_32_lens"; "aa"; "flux_s";
   "flux_density"; "mass_h2"]%string.

(** The loop of In [4],
    [for i in range(len(lines)): print(lines[i] + '\t' + str(obs_freq[i]))]:
    the rows printed, each kept as the pair it is formatted from, and the
    exception that ends the loop, if any. *)
Definition row (lines : list string) (obs_freq : list float64) (i : nat)
  : result (string * float64) :=
  match nth_error lines i, nth_error obs_freq i with
  | Some l, Some f => Ok (l, f)
  | _, _ => Raise IndexError
  end.

Fixpoint print_rows
  (lines : list string) (obs_freq : list float64) (range : list nat)
  : list (string * float64) * option exn :=
  match range with
  | [] => ([], None)
  | i :: range' =>
      match row lines obs_freq i with
      | Ok r =>
          let (out, e) := print_rows lines obs_freq range' in (r :: out, e)
      | Raise e => ([], Some e)
      end
  end.

Definition print_table (lines : list string) (obs_freq : list float64)
  : list (string * float64) * option exn :=
  print_rows lines obs_freq (seq 0 (length lines)).

(** ** Transits/p3.ipynb: the dictionary of priors

    The cell zips three parallel lists into a dictionary from parameter
    name to [{'distribution': ..., 'hyperparameters': ...}]. *)

Module Transits.

(** What the inner dictionaries hold: a distribution name, a number, a
    list of numbers. *)
Inductive pyval : Type :=
| Str (s : string)
| Num (r : R)
| NumList (l : list R).

Abbreviation prior_dict := (gmap string (gmap string pyval)).

Inductive outcome (A : Type) : Type :=
| Done (a : A)
| KeyError (key : string).
Arguments Done {A} a.
Arguments KeyError {A} key.

(** [d[key][field] = v]: the inner dictionary is looked up, then updated
    in place. *)
Definition setitem_in (key field : string) (v : pyval) (d : prior_dict)
  : outcome prior_dict :=
  match d !! key with
  | Some inner => Done (<[key := <[field := v]> inner]> d)
  | None => KeyError key
  end.

(** [zip(params, dists, hyperps)] stops at the shortest list. *)
Fixpoint zip3 {A B C} (a : list A) (b : list B) (c : list C)
  : list (A * B * C) :=
  match a, b, c with
  | x :: a', y :: b', z :: c' => (x, y, z) :: zip3 a' b' c'
  | _, _, _ => []
  end.

(** [pri1[param] = {}] then
    [pri1[param]['distribution'], pri1[param]['hyperparameters']
     = dist, hyperp]. *)
Definition loop_body (pri1 : prior_dict) (row : string * string * pyval)
  : outcome prior_dict :=
  let '(param, dist, hyperp) := row in
  let pri1 := <[param := ∅]> pri1 in
  match setitem_in param "distribution" (Str dist) pri1 with
  | Done pri1 => setitem_in param "hyperparameters" hyperp pri1
  | KeyError key => KeyError key
  end.

Fixpoint for_each (pri1 : prior_dict) (rows : list (string * string * pyval))
  : outcome prior_dict :=
  match rows with
  | [] => Done pri1
  | row :: rows' =>
      match loop_body pri1 row with
      | Done pri1 => for_each pri1 rows'
      | KeyError key => KeyError key
      end
  end.

(** [pri1 = {}] and the loop. *)
Definition build_priors
  (params dists : list string) (hyperps : list pyval) : outcome prior_dict :=
  for_each ∅ (zip3 params dists hyperps).

Definition params : list string :=
  ["P_p1"; "t0_p1"; "r1_p1"; "r2_p1"; "q1_EUL"; "q2_EUL"; "ecc_p1";
   "omega_p1"; "a_p1"; "mdilution_EUL"; "mflux_EUL"; "sigma_w_EUL"]%string.

Definition dists : list string :=
  ["fixed"; "normal"; "uniform"; "uniform"; "uniform"; "uniform"; "fixed";
   "fixed"; "uniform"; "fixed"; "normal"; "loguniform"]%string.

Definition hyperps : list pyval :=
  [Num 1.7497798; NumList [58423.10; 0.1]; NumList [0; 1]; NumList [0; 1];
   NumList [0; 1]; NumList [0; 1]; Num 0.0; Num 90; NumList [1; 100];
   Num 1.0; NumList [0; 0.1]; NumList [0.1; 1000]].

Definition pri1 : outcome prior_dict := build_priors params dists hyperps.

(** The inner dictionary the loop body leaves for a row. *)
Definition prior (dist : string) (hyperp : pyval) : gmap string pyval :=
  <["hyperparameters" := hyperp]> (<["distribution" := Str dist]> ∅).

End Transits.

(** The parameter a row is for, and the update the loop body makes. *)
Definition row_param (row : string * string * Transits.pyval) : string :=
  row.1.1.

Definition bind_row
  (d : Transits.prior_dict) (row : string * string * Transits.pyval)
  : Transits.prior_dict :=
  <[row_param row := Transits.prior row.1.2 row.2]> d.

(** The inputs [i] with another line ratio and magnification. *)
Definition with_lensing (i : Inputs.t) (ratio magnification : R)
  : Inputs.t :=
  Inputs.make (Inputs.sfr i) (Inputs.kappa i) (Inputs.L_sun_value i)
    (Inputs.redshift i) ratio magnification (Inputs.luminosity_distance i)
    (Inputs.velocity_dispersion i) (Inputs.alpha_CO i).

(** The reference scenario at a redshift of 1e103. *)
Definition huge_redshift : Inputs.t :=
  Inputs.make 30 4.5e-44 3.828e26 1e103 0.6 4.3 (fun _ => 7094.5) 200 4.

(** * Properties *)

(** Reading the fields of a concrete scenario. *)
Ltac fields :=
  cbn [Inputs.sfr Inputs.kappa Inputs.L_sun_value Inputs.redshift
       Inputs.ratio Inputs.magnification Inputs.luminosity_distance
       Inputs.velocity_dispersion Inputs.alpha_CO].


(** ** Running the cells *)

Lemma getitem_of_nat {A} (a : list A) (k : nat) :
  getitem a (Z.of_nat k) =
  match nth_error a k with
  | Some x => Ok x
  | None => Raise IndexError
  end.
Proof.
  assert (H : (Z.of_nat k <? 0)%Z = false) by (apply Z.ltb_ge; lia).
  unfold getitem. cbv zeta. rewrite H, H, Nat2Z.id. reflexivity.
Qed.

Lemma print_row_in_range
  (ns : namespace) (names : list string) (obs : list float64) (k : nat) :
  ns !! "lines" = Some (StrArray names) ->
  ns !! "obs_freq" = Some (NpArray obs) ->
  ns !! "i" = Some (PyInt (Z.of_nat k)) ->
  (k < length names)%nat -> (k < length obs)%nat ->
  print_row ns = Ok (tt, ns).
Proof.
  intros Hnames Hobs Hi Hk1 Hk2.
  unfold print_row, bind, load_strings, load_int, load_array, lift, ret.
  rewrite Hnames, Hi, getitem_of_nat.
  destruct (nth_error names k) eqn:H1;
    [|apply nth_error_None in H1; lia].
  rewrite Hobs, Hi, getitem_of_nat.
  destruct (nth_error obs k) eqn:H2;
    [|apply nth_error_None in H2; lia].
  reflexivity.
Qed.

(** The loop leaves the namespace as it was but for the index [i], bound to
    the last element of the range. *)
Lemma for_range_print_row
  (range : list nat) (ns : namespace)
  (names : list string) (obs : list float64) :
  ns !! "lines" = Some (StrArray names) ->
  ns !! "obs_freq" = Some (NpArray obs) ->
  Forall (fun k => (k < length names)%nat /\ (k < length obs)%nat) range ->
  for_range "i" range print_row ns =
  Ok (tt,
      match last range with
      | Some k => <["i" := PyInt (Z.of_nat k)]> ns
      | None => ns
      end).
Proof.
  revert ns. induction range as [|k range IH]; intros ns Hnames Hobs Hall;
    [reflexivity|].
  apply Forall_cons in Hall as [[Hk1 Hk2] Hall].
  cbn [for_range]. unfold bind at 1. unfold assign at 1.
  unfold bind at 1.
  rewrite (print_row_in_range _ names obs k); try assumption.
  2:{ rewrite lookup_insert_ne by discriminate. exact Hnames. }
  2:{ rewrite lookup_insert_ne by discriminate. exact Hobs. }
  2:{ apply lookup_insert_eq. }
  rewrite IH; try assumption.
  2:{ rewrite lookup_insert_ne by discriminate. exact Hnames. }
  2:{ rewrite lookup_insert_ne by discriminate. exact Hobs. }
  rewrite (last_cons k range).
  destruct (last range) as [k'|]; [|reflexivity].
  rewrite insert_insert_eq. reflexivity.
Qed.

Lemma print_loop_notebook (ns : namespace) (obs : list float64) :
  ns !! "lines" = Some (StrArray lines) ->
  ns !! "obs_freq" = Some (NpArray obs) ->
  length obs = 7%nat ->
  print_loop ns = Ok (tt, <["i" := PyInt 6]> ns).
Proof.
  intros Hnames Hobs Hlen.
  unfold print_loop, bind, load_strings. rewrite Hnames.
  rewrite (for_range_print_row _ ns lines obs Hnames Hobs).
  - reflexivity.
  - rewrite Hlen. cbn [lines length seq].
    repeat (constructor; [lia|]). constructor.
Qed.

Local Opaque obs_freq freq1 float_pow lfir.

Lemma run_all_pipeline (i : Inputs.t) (ns : namespace) :
  run_all i ns =
  match pipeline i with
  | Ok d => Ok (tt, store i d ns)
  | Raise e => Raise e
  end.
Proof.
  unfold run_all, pipeline.
  unfold cell_2, cell_3, cell_4, cell_5, cell_6, cell_7, cell_8, cell_9.
  unfold bind, assign, lift, load_float, load_np, load_array.
  simplify_map_eq.
  destruct (lfir (Inputs.sfr i) (Inputs.kappa i)) as [v_lfir|e]; [|done].
  simplify_map_eq.
  rewrite (print_loop_notebook _ (obs_freq rest_frame (Inputs.redshift i)));
    [| by simplify_map_eq | by simplify_map_eq | reflexivity].
  simplify_map_eq.
  destruct (freq1 (obs_freq rest_frame (Inputs.redshift i))) as [f|e]; [|done].
  simplify_map_eq.
  destruct (float_pow (1 + Inputs.redshift i) 3) as [cube|e]; [|done].
  simplify_map_eq.
  reflexivity.
Qed.

Local Transparent obs_freq freq1 float_pow lfir.

(** ** Signs *)

Lemma sgn_pos (r : R) : 0 < r -> sgn r = Pos.
Proof.
  intros Hr. unfold sgn.
  destruct (total_order_T r 0) as [[Hlt|Heq]|Hgt]; [lra|lra|reflexivity].
Qed.

Lemma sgn_neg (r : R) : r < 0 -> sgn r = Neg.
Proof.
  intros Hr. unfold sgn.
  destruct (total_order_T r 0) as [[Hlt|Heq]|Hgt]; [reflexivity|lra|lra].
Qed.

Lemma sgn_zero : sgn 0 = Zero.
Proof.
  unfold sgn.
  destruct (total_order_T 0 0) as [[Hlt|Heq]|Hgt]; [lra|reflexivity|lra].
Qed.

Lemma sgn_nonzero (r : R) : r <> 0 -> sgn r <> Zero.
Proof.
  intros Hr. unfold sgn.
  destruct (total_order_T r 0) as [[Hlt|Heq]|Hgt];
    [discriminate|lra|discriminate].
Qed.

Lemma float_truediv_nonzero (x y : R) :
  y <> 0 -> float_truediv x y = Ok (x / y).
Proof.
  intros Hy. unfold float_truediv.
  destruct (Req_dec_T y 0) as [Heq|Hne]; [contradiction|reflexivity].
Qed.

Lemma float_truediv_zero (x : R) :
  float_truediv x 0 = Raise ZeroDivisionError.
Proof.
  unfold float_truediv.
  destruct (Req_dec_T 0 0) as [Heq|Hne]; [reflexivity|contradiction].
Qed.

Lemma true_divide_finite (a b : R) :
  b <> 0 -> np.true_divide (Finite a) (Finite b) = Finite (a / b).
Proof.
  intros Hb. unfold np.true_divide.
  destruct (sgn b) eqn:Hs; try reflexivity.
  exfalso. exact (sgn_nonzero b Hb Hs).
Qed.

(** numpy at the edge of the domain, and a cell run out of order. *)

Example log10_of_negative : np.log10 (Finite (-1)) = NaN.
Proof. unfold np.log10. rewrite sgn_neg by lra. reflexivity. Qed.

Example log10_of_zero : np.log10 (Finite 0) = NegInf.
Proof. unfold np.log10. rewrite sgn_zero. reflexivity. Qed.

Example zero_times_inf : np.multiply (Finite 0) PosInf = NaN.
Proof. unfold np.multiply. rewrite sgn_zero. reflexivity. Qed.

Example lfir_zero_kappa : lfir 30 0 = Raise ZeroDivisionError.
Proof. apply float_truediv_zero. Qed.

Example cell_5_alone (i : Inputs.t) :
  cell_5 i ∅ = Raise (NameError "lco_diff_units").
Proof. reflexivity. Qed.

(** ** Stage formulas *)

(** C1: for every star formation rate [sfr > 0] and conversion factor
    [kappa > 0], [infrared_luminosity sfr kappa] returns exactly
    [sfr / kappa]. *)
Theorem infrared_luminosity_exact (sfr kappa : R) :
  0 < sfr -> 0 < kappa ->
  Stage.infrared_luminosity sfr kappa = Ok (sfr / kappa).
Proof.
  intros _ Hk. unfold Stage.infrared_luminosity, lfir.
  apply float_truediv_nonzero. lra.
Qed.

Lemma infrared_luminosity_exact_witness :
  Stage.infrared_luminosity 30 4.5e-44 = Ok (30 / 4.5e-44).
Proof.
  apply (infrared_luminosity_exact 30 4.5e-44); lra.
Defined.

Lemma logco_positive (x : R) :
  0 < x -> logco (Finite x) = Finite ((Rlog 10 x - 0.53) / 1.13).
Proof.
  intros Hx. unfold logco, np.log10.
  rewrite (sgn_pos x Hx). cbn [np.subtract].
  apply true_divide_finite. lra.
Qed.

Lemma co_luminosity_10_value (L_IR L_sun : R) :
  0 < L_IR -> 0 < L_sun ->
  Stage.co_luminosity_10 L_IR L_sun =
  Ok (Finite (Rpower 10 ((Rlog 10 (L_IR / L_sun) - 0.53) / 1.13))).
Proof.
  intros HL Hs. unfold Stage.co_luminosity_10, lfir_sun.
  rewrite true_divide_finite by lra.
  rewrite logco_positive by (apply Rdiv_lt_0_compat; assumption).
  reflexivity.
Qed.

(** C2: for every [L_IR > 0] and [L_sun > 0], [co_luminosity_10 L_IR L_sun]
    returns [10^((log10 (L_IR / L_sun) - 0.53) / 1.13)]: the luminosity in
    solar units, the Carilli and Walter relation in log space, then the
    exponential. *)
Theorem co_luminosity_10_formula (L_IR L_sun : R) :
  0 < L_IR -> 0 < L_sun ->
  Stage.co_luminosity_10 L_IR L_sun =
  Ok (Finite (Rpower 10 ((Rlog 10 (L_IR / L_sun) - 0.53) / 1.13))).
Proof.
  exact (co_luminosity_10_value L_IR L_sun).
Qed.

Lemma co_luminosity_10_formula_witness :
  Stage.co_luminosity_10 100 10 =
  Ok (Finite (Rpower 10 ((Rlog 10 (100 / 10) - 0.53) / 1.13))).
Proof.
  apply (co_luminosity_10_formula 100 10); lra.
Defined.



(** C6: for every redshift [z] with [1 + z > 0], the observed frequency of
    every line of the table of CO rest frequencies is computed, as
    [rest_frequency / (1 + z)]: one entry per line, not one chosen line. *)
Theorem select_observing_line_all (z : R) :
  0 < 1 + z ->
  length (Stage.select_observing_line z) = length lines /\
  Forall2
    (fun rest obs => exists f, rest = Finite f /\ obs = Finite (f / (1 + z)))
    rest_frame (Stage.select_observing_line z).
Proof.
  intros Hz. split; [reflexivity|].
  unfold Stage.select_observing_line, obs_freq, rest_frame.
  cbn [map].
  repeat
    (constructor;
     [eexists; split; [reflexivity | apply true_divide_finite; lra] |]).
  constructor.
Qed.

Lemma select_observing_line_all_witness :
  length (Stage.select_observing_line 1.036) = length lines /\
  Forall2
    (fun rest obs =>
       exists f, rest = Finite f /\ obs = Finite (f / (1 + 1.036)))
    rest_frame (Stage.select_observing_line 1.036).
Proof.
  apply (select_observing_line_all 1.036); lra.
Defined.

(** ** Monotonicity *)

Lemma ln_10_pos : 0 < ln 10.
Proof.
  rewrite <- ln_1. apply ln_increasing; lra.
Qed.

Lemma Rlog_10_increasing (x y : R) : 0 < x -> x < y -> Rlog 10 x < Rlog 10 y.
Proof.
  intros Hx Hxy. unfold Rlog.
  apply Rmult_lt_compat_r.
  - apply Rinv_0_lt_compat, ln_10_pos.
  - apply ln_increasing; assumption.
Qed.

Lemma carilli_walter_increasing (x y : R) :
  0 < x -> x < y ->
  Rpower 10 ((Rlog 10 x - 0.53) / 1.13) < Rpower 10 ((Rlog 10 y - 0.53) / 1.13).
Proof.
  intros Hx Hxy. apply Rpower_lt; [lra|].
  pose proof (Rlog_10_increasing x y Hx Hxy). lra.
Qed.

(** C7: for fixed [L_sun > 0] and [alpha_CO > 0], the composition
    [h2_mass (co_luminosity_10 L_IR L_sun) alpha_CO] is increasing in
    [L_IR] over [L_IR > 0]. *)
Theorem h2_mass_increasing_in_L_IR (L_sun alpha_CO L1 L2 : R) :
  0 < L_sun -> 0 < alpha_CO -> 0 < L1 -> L1 < L2 ->
  exists m1 m2,
    on_result (fun l => Stage.h2_mass l alpha_CO)
      (Stage.co_luminosity_10 L1 L_sun) = Ok (Finite m1) /\
    on_result (fun l => Stage.h2_mass l alpha_CO)
      (Stage.co_luminosity_10 L2 L_sun) = Ok (Finite m2) /\
    m1 < m2.
Proof.
  intros Hs Ha H1 H12.
  rewrite !co_luminosity_10_value by lra.
  cbn [on_result Stage.h2_mass mass_h2 np.multiply].
  eexists _, _. split; [reflexivity|]. split; [reflexivity|].
  apply Rmult_lt_compat_r; [assumption|].
  apply carilli_walter_increasing.
  - apply Rdiv_lt_0_compat; assumption.
  - apply Rmult_lt_compat_r; [apply Rinv_0_lt_compat; assumption | assumption].
Qed.

Lemma h2_mass_increasing_in_L_IR_witness :
  exists m1 m2,
    on_result (fun l => Stage.h2_mass l 4)
      (Stage.co_luminosity_10 1 1) = Ok (Finite m1) /\
    on_result (fun l => Stage.h2_mass l 4)
      (Stage.co_luminosity_10 2 1) = Ok (Finite m2) /\
    m1 < m2.
Proof.
  apply (h2_mass_increasing_in_L_IR 1 4 1 2); lra.
Defined.

(** ** The run as a whole *)

Lemma freq1_obs_freq (z : R) :
  freq1 (obs_freq rest_frame z) =
  Ok (np.true_divide (Finite 345.795989) (Finite (1 + z))).
Proof. reflexivity. Qed.

Lemma float_pow_in_range (x : R) (n : nat) :
  Rabs (x ^ n) <= float_max -> float_pow x n = Ok (x ^ n).
Proof.
  intros Hle. unfold float_pow.
  destruct (Rlt_dec float_max (Rabs (x ^ n))) as [Hlt|_]; [lra|reflexivity].
Qed.

Lemma float_pow_overflow (x : R) (n : nat) :
  float_max < Rabs (x ^ n) -> float_pow x n = Raise OverflowError.
Proof.
  intros Hlt. unfold float_pow.
  destruct (Rlt_dec float_max (Rabs (x ^ n))) as [_|Hle];
    [reflexivity|contradiction].
Qed.

Lemma float_max_lower : 1000000000 <= float_max.
Proof.
  unfold float_max.
  assert (H : 2 ^ 30 <= 2 ^ 1023) by (apply Rle_pow; [lra | lia]).
  assert (H52 : 0 < / 2 ^ 52 <= 1).
  { split; [apply Rinv_0_lt_compat, pow_lt; lra|].
    rewrite <- Rinv_1. apply Rinv_le_contravar; [lra|].
    apply pow_R1_Rle. lra. }
  assert (H30 : 2 ^ 30 = 1073741824) by lra.
  nra.
Qed.

Lemma float_max_upper : float_max < 1e103 ^ 3.
Proof.
  unfold float_max.
  assert (H52 : 0 < / 2 ^ 52) by (apply Rinv_0_lt_compat, pow_lt; lra).
  assert (Hp : 0 < 2 ^ 1023) by (apply pow_lt; lra).
  assert (H : 2 * 2 ^ 1023 < 1e103 ^ 3).
  { replace 1e103 with (10 ^ 103) by lra.
    rewrite <- pow_mult. change (2 * 2 ^ 1023) with (2 ^ 1024).
    change 2 with (IZR 2). change 10 with (IZR 10).
    rewrite !pow_IZR. apply IZR_lt. vm_compute. reflexivity. }
  nra.
Qed.

(** Redshifts of any plausible size are in range. *)
Lemma cube_in_range_small (z : R) : Rabs (1 + z) <= 1000 -> cube_in_range z.
Proof.
  intros Hz. unfold cube_in_range. rewrite <- RPow_abs.
  pose proof float_max_lower as Hmax.
  assert (Hpow : Rabs (1 + z) ^ 3 <= 1000 ^ 3)
    by (apply pow_incr; split; [apply Rabs_pos | exact Hz]).
  lra.
Qed.

(** A redshift of 1e103 is not. *)
Lemma cube_overflows : float_max < Rabs ((1 + 1e103) ^ 3).
Proof.
  pose proof float_max_upper as Hmax.
  assert (H : 1e103 ^ 3 <= (1 + 1e103) ^ 3)
    by (apply pow_incr; lra).
  rewrite Rabs_pos_eq; [lra|].
  apply pow_le. lra.
Qed.

(** A run raises [ZeroDivisionError] from [sfr/kappa], or
    [OverflowError] from [(1+redshift)**3], and nothing else. *)
Lemma pipeline_raises (i : Inputs.t) (e : exn) :
  pipeline i = Raise e ->
  (e = ZeroDivisionError /\ Inputs.kappa i = 0) \/
  (e = OverflowError /\ Inputs.kappa i <> 0 /\
   ~ cube_in_range (Inputs.redshift i)).
Proof.
  unfold pipeline, lfir, float_truediv.
  destruct (Req_dec_T (Inputs.kappa i) 0) as [Hk|Hk].
  { intros [= <-]. auto. }
  rewrite freq1_obs_freq. unfold float_pow, cube_in_range.
  destruct (Rlt_dec float_max (Rabs ((1 + Inputs.redshift i) ^ 3)))
    as [Hlt|Hle]; [|discriminate].
  intros [= <-]. right. split; [reflexivity|]. split; [exact Hk|lra].
Qed.

Lemma pipeline_returns (i : Inputs.t) :
  Inputs.kappa i <> 0 -> cube_in_range (Inputs.redshift i) ->
  exists d, pipeline i = Ok d.
Proof.
  intros Hk Hz. destruct (pipeline i) as [d|e] eqn:Hp; [eauto|].
  destruct (pipeline_raises i e Hp) as [[_ H]|(_ & _ & H)]; contradiction.
Qed.

Lemma run_all_returns (i : Inputs.t) (ns : namespace) :
  Inputs.kappa i <> 0 -> cube_in_range (Inputs.redshift i) ->
  exists ns1, run_all i ns = Ok (tt, ns1).
Proof.
  intros Hk Hz. destruct (pipeline_returns i Hk Hz) as [d Hd].
  exists (store i d ns). rewrite run_all_pipeline, Hd. reflexivity.
Qed.

Lemma run_all_inv (i : Inputs.t) (ns ns1 : namespace) :
  run_all i ns = Ok (tt, ns1) ->
  exists d, pipeline i = Ok d /\ ns1 = store i d ns.
Proof.
  rewrite run_all_pipeline.
  destruct (pipeline i) as [d|e]; [|discriminate].
  intros [= <-]. eauto.
Qed.

Lemma store_lookup_assigned
  (i : Inputs.t) (d : Derived.t) (ns ns' : namespace) (name : string) :
  In name assigned -> store i d ns !! name = store i d ns' !! name.
Proof.
  intros Hin. unfold store.
  rewrite !lookup_insert. repeat case_decide; try reflexivity.
  exfalso. unfold assigned in Hin. cbn [In] in Hin.
  repeat (destruct Hin as [Hin|Hin]; [congruence|]). exact Hin.
Qed.

Lemma store_outputs (i : Inputs.t) (d : Derived.t) (ns ns' : namespace) :
  map (fun name => store i d ns !! name) assigned =
  map (fun name => store i d ns' !! name) assigned.
Proof.
  apply map_ext_in. intros name Hin. apply store_lookup_assigned, Hin.
Qed.

Lemma store_store (i : Inputs.t) (d : Derived.t) (ns : namespace) :
  store i d (store i d ns) = store i d ns.
Proof.
  apply map_eq. intros name. unfold store.
  rewrite !lookup_insert. repeat case_decide; reflexivity.
Qed.

Lemma store_lfir (i : Inputs.t) (d : Derived.t) (ns : namespace) :
  store i d ns !! "lfir" = Some (PyFloat (Derived.lfir d)).
Proof. unfold store. by simplify_map_eq. Qed.

Lemma store_lco_diff_units (i : Inputs.t) (d : Derived.t) (ns : namespace) :
  store i d ns !! "lco_diff_units" = Some (NpFloat (Derived.lco_diff_units d)).
Proof. unfold store. by simplify_map_eq. Qed.

Lemma store_obs_freq (i : Inputs.t) (d : Derived.t) (ns : namespace) :
  store i d ns !! "obs_freq" = Some (NpArray (Derived.obs_freq d)).
Proof. unfold store. by simplify_map_eq. Qed.

Lemma store_freq1 (i : Inputs.t) (d : Derived.t) (ns : namespace) :
  store i d ns !! "freq1" = Some (NpFloat (Derived.freq1 d)).
Proof. unfold store. by simplify_map_eq. Qed.

Lemma store_flux_s (i : Inputs.t) (d : Derived.t) (ns : namespace) :
  store i d ns !! "flux_s" = Some (NpFloat (Derived.flux_s d)).
Proof. unfold store. by simplify_map_eq. Qed.

Lemma store_flux_density (i : Inputs.t) (d : Derived.t) (ns : namespace) :
  store i d ns !! "flux_density" = Some (NpFloat (Derived.flux_density d)).
Proof. unfold store. by simplify_map_eq. Qed.

Lemma store_mass_h2 (i : Inputs.t) (d : Derived.t) (ns : namespace) :
  store i d ns !! "mass_h2" = Some (NpFloat (Derived.mass_h2 d)).
Proof. unfold store. by simplify_map_eq. Qed.

(** C8: for every fixed set of inputs, running the full pipeline twice gives
    identical values for every derived quantity: what a run leaves does not
    depend on what the kernel held before, and a second run in the same
    kernel changes nothing. *)
Theorem run_all_deterministic (i : Inputs.t) (ns ns' : namespace) :
  outputs (run_all i ns) = outputs (run_all i ns') /\
  bind (run_all i) (fun _ => run_all i) ns = run_all i ns.
Proof.
  unfold bind. rewrite !run_all_pipeline.
  destruct (pipeline i) as [d|e] eqn:Hd; [|split; reflexivity].
  split.
  - unfold outputs. f_equal. apply store_outputs.
  - rewrite run_all_pipeline, Hd, store_store. reflexivity.
Qed.

Lemma pipeline_fields (i : Inputs.t) (d : Derived.t) :
  pipeline i = Ok d ->
  exists L_IR,
    lfir (Inputs.sfr i) (Inputs.kappa i) = Ok L_IR /\
    Derived.lco_diff_units d =
      lco_diff_units
        (logco (lfir_sun L_IR (Finite (Inputs.L_sun_value i * 1e7)))) /\
    Derived.lco_32 d = lco_32 (Derived.lco_diff_units d) (Inputs.ratio i) /\
    Derived.lco_32_lens d =
      lco_32_lens (Inputs.magnification i) (Derived.lco_32 d) /\
    Derived.mass_h2 d =
      mass_h2 (Derived.lco_diff_units d) (Inputs.alpha_CO i).
Proof.
  unfold pipeline.
  destruct (lfir _ _) as [L_IR|]; [|discriminate].
  destruct (freq1 _) as [f|]; [|discriminate].
  destruct (float_pow _ _) as [cube|]; [|discriminate].
  intros [= <-]. exists L_IR. repeat split; reflexivity.
Qed.

Lemma store_lco_32 (i : Inputs.t) (d : Derived.t) (ns : namespace) :
  store i d ns !! "lco_32" = Some (NpFloat (Derived.lco_32 d)).
Proof. unfold store. by simplify_map_eq. Qed.

Lemma store_lco_32_lens (i : Inputs.t) (d : Derived.t) (ns : namespace) :
  store i d ns !! "lco_32_lens" = Some (NpFloat (Derived.lco_32_lens d)).
Proof. unfold store. by simplify_map_eq. Qed.

Lemma pipeline_other_lensing
  (i : Inputs.t) (d : Derived.t) (ratio magnification : R) :
  pipeline i = Ok d ->
  exists d',
    pipeline (with_lensing i ratio magnification) = Ok d' /\
    Derived.mass_h2 d' = Derived.mass_h2 d.
Proof.
  unfold pipeline, with_lensing.
  cbn [Inputs.sfr Inputs.kappa Inputs.L_sun_value Inputs.redshift
       Inputs.ratio Inputs.magnification Inputs.luminosity_distance
       Inputs.velocity_dispersion Inputs.alpha_CO].
  destruct (lfir _ _) as [L_IR|]; [|discriminate].
  destruct (freq1 _) as [f|]; [|discriminate].
  destruct (float_pow _ _) as [cube|]; [|discriminate].
  intros [= <-]. eexists. split; reflexivity.
Qed.

(** C5: [h2_mass L_CO10 alpha_CO] returns [L_CO10 * alpha_CO], and the
    luminosity a run passes to it is the unlensed CO(1-0) luminosity, the
    value of [co_luminosity_10] at the infrared luminosity of the run.
    The line-ratio-converted and the lensed luminosity are what the run
    binds to [lco_32] and [lco_32_lens]; neither enters the mass, which is
    the same for every line ratio and magnification. *)
Theorem h2_mass_of_CO10 (i : Inputs.t) (ns ns1 : namespace) :
  run_all i ns = Ok (tt, ns1) ->
  (forall L alpha_CO : R,
     Stage.h2_mass (Finite L) alpha_CO = Finite (L * alpha_CO)) /\
  exists L_IR L_CO10,
    Stage.infrared_luminosity (Inputs.sfr i) (Inputs.kappa i) = Ok L_IR /\
    Stage.co_luminosity_10 L_IR (Inputs.L_sun_value i * 1e7) = Ok L_CO10 /\
    ns1 !! "lco_diff_units" = Some (NpFloat L_CO10) /\
    ns1 !! "lco_32" =
      Some (NpFloat (Stage.co_luminosity_line L_CO10 (Inputs.ratio i))) /\
    ns1 !! "lco_32_lens" =
      Some
        (NpFloat
           (Stage.apply_lensing
              (Stage.co_luminosity_line L_CO10 (Inputs.ratio i))
              (Inputs.magnification i))) /\
    ns1 !! "mass_h2" =
      Some (NpFloat (Stage.h2_mass L_CO10 (Inputs.alpha_CO i))) /\
    forall ratio magnification ns',
      exists ns1',
        run_all (with_lensing i ratio magnification) ns' = Ok (tt, ns1') /\
        ns1' !! "mass_h2" =
          Some (NpFloat (Stage.h2_mass L_CO10 (Inputs.alpha_CO i))).
Proof.
  intros Hrun. split; [reflexivity|].
  destruct (run_all_inv i ns ns1 Hrun) as (d & Hd & ->).
  destruct (pipeline_fields i d Hd) as (L_IR & HIR & HCO & H32 & Hlens & Hm).
  exists L_IR, (Derived.lco_diff_units d).
  rewrite store_lco_diff_units, store_lco_32, store_lco_32_lens.
  rewrite store_mass_h2, Hlens, H32, Hm.
  split; [exact HIR|].
  split; [unfold Stage.co_luminosity_10; rewrite HCO; reflexivity|].
  do 4 (split; [reflexivity|]).
  intros ratio magnification ns'.
  destruct (pipeline_other_lensing i d ratio magnification Hd)
    as (d' & Hd' & Hmass).
  exists (store (with_lensing i ratio magnification) d' ns').
  rewrite run_all_pipeline, Hd', store_mass_h2, Hmass, Hm.
  split; reflexivity.
Qed.

Lemma h2_mass_of_CO10_witness :
  exists ns1,
    run_all (notebook 3.828e26 (fun _ => 7094.5)) ∅ = Ok (tt, ns1) /\
    exists L_IR L_CO10,
      Stage.infrared_luminosity 30 4.5e-44 = Ok L_IR /\
      Stage.co_luminosity_10 L_IR (3.828e26 * 1e7) = Ok L_CO10 /\
      ns1 !! "lco_diff_units" = Some (NpFloat L_CO10) /\
      ns1 !! "mass_h2" = Some (NpFloat (Stage.h2_mass L_CO10 4)).
Proof.
  destruct (run_all_returns (notebook 3.828e26 (fun _ => 7094.5)) ∅)
    as [ns1 Hrun].
  { cbn [notebook Inputs.kappa]. lra. }
  { apply cube_in_range_small. cbn [notebook Inputs.redshift].
    apply Rabs_le. lra. }
  exists ns1. split; [exact Hrun|].
  destruct (h2_mass_of_CO10 _ _ _ Hrun)
    as (_ & L_IR & L_CO10 & HIR & HCO & Hco & _ & _ & Hmass & _).
  exists L_IR, L_CO10. auto.
Defined.

(** Against C10 as stated: the reference scenario and the same scenario at
    a redshift of 1e103 agree on the star formation rate, [kappa], the
    solar luminosity and [alpha_CO]; the first run leaves an H2 mass, the
    second raises [OverflowError] in In [7] and leaves none. *)
Lemma h2_mass_independent_counterexample :
  Inputs.sfr huge_redshift = Inputs.sfr (notebook 3.828e26 (fun _ => 7094.5))
  /\ Inputs.kappa huge_redshift
     = Inputs.kappa (notebook 3.828e26 (fun _ => 7094.5))
  /\ Inputs.L_sun_value huge_redshift
     = Inputs.L_sun_value (notebook 3.828e26 (fun _ => 7094.5))
  /\ Inputs.alpha_CO huge_redshift
     = Inputs.alpha_CO (notebook 3.828e26 (fun _ => 7094.5))
  /\ (exists m,
        h2_of (run_all (notebook 3.828e26 (fun _ => 7094.5)) ∅)
        = Ok (Some (NpFloat m)))
  /\ h2_of (run_all huge_redshift ∅) = Raise OverflowError
  /\ h2_of (run_all (notebook 3.828e26 (fun _ => 7094.5)) ∅)
     <> h2_of (run_all huge_redshift ∅).
Proof.
  do 4 (split; [reflexivity|]).
  assert (H1 : exists m,
             h2_of (run_all (notebook 3.828e26 (fun _ => 7094.5)) ∅)
             = Ok (Some (NpFloat m))).
  { destruct (pipeline_returns (notebook 3.828e26 (fun _ => 7094.5)))
      as [d Hd].
    { cbn [notebook Inputs.kappa]. lra. }
    { apply cube_in_range_small. cbn [notebook Inputs.redshift].
      apply Rabs_le. lra. }
    exists (Derived.mass_h2 d).
    rewrite run_all_pipeline, Hd. unfold h2_of.
    rewrite store_mass_h2. reflexivity. }
  assert (H2 : h2_of (run_all huge_redshift ∅) = Raise OverflowError).
  { rewrite run_all_pipeline. unfold pipeline, huge_redshift, lfir.
    cbn [Inputs.sfr Inputs.kappa Inputs.redshift].
    rewrite float_truediv_nonzero by lra.
    rewrite freq1_obs_freq, float_pow_overflow by exact cube_overflows.
    reflexivity. }
  split; [exact H1|]. split; [exact H2|].
  destruct H1 as [m Hm]. rewrite Hm, H2. discriminate.
Qed.

(** C10 (as the code has it): two runs that agree on the star formation
    rate, [kappa] and [L_sun] (and on the constant [alpha_CO]), and whose
    [(1+redshift)**3] does not overflow, leave the same H2 mass, or both
    raise [ZeroDivisionError], whatever their magnification, line ratio,
    redshift, luminosity distance and velocity dispersion are. *)
Theorem h2_mass_independent (i1 i2 : Inputs.t) (ns1 ns2 : namespace) :
  Inputs.sfr i1 = Inputs.sfr i2 ->
  Inputs.kappa i1 = Inputs.kappa i2 ->
  Inputs.L_sun_value i1 = Inputs.L_sun_value i2 ->
  Inputs.alpha_CO i1 = Inputs.alpha_CO i2 ->
  cube_in_range (Inputs.redshift i1) ->
  cube_in_range (Inputs.redshift i2) ->
  h2_of (run_all i1 ns1) = h2_of (run_all i2 ns2).
Proof.
  intros Hsfr Hkappa Hsun Halpha Hz1 Hz2.
  rewrite !run_all_pipeline. unfold pipeline.
  rewrite !freq1_obs_freq, Hsfr, Hkappa, Hsun, Halpha.
  rewrite !float_pow_in_range by assumption.
  destruct (lfir _ _) as [a|]; [|reflexivity].
  unfold h2_of. rewrite !store_mass_h2. reflexivity.
Qed.

Lemma h2_mass_independent_witness :
  h2_of (run_all (notebook 3.828e26 (fun _ => 7094.5)) ∅) =
  h2_of
    (run_all (Inputs.make 30 4.5e-44 3.828e26 2 0.5 1 (fun z => z) 100 4) ∅).
Proof.
  apply h2_mass_independent; try reflexivity;
    apply cube_in_range_small; unfold notebook; fields; apply Rabs_le; lra.
Defined.

(** ** The values of a run inside the domain of the formulas *)

Lemma carilli_walter_pos (y : R) : 0 < carilli_walter y.
Proof. unfold carilli_walter, Rpower. apply exp_pos. Qed.

Section Run_values.
Variable i : Inputs.t.
Let z := Inputs.redshift i.
Let y := Inputs.sfr i / Inputs.kappa i / (Inputs.L_sun_value i * 1e7).
Let x := carilli_walter y.
Let dl := Inputs.luminosity_distance i z.
Let numerator :=
  Inputs.magnification i * (x * Inputs.ratio i) * (345.795989 / (1 + z))
  * (345.795989 / (1 + z)) * (1 + z) ^ 3.

Hypothesis kappa_nonzero : Inputs.kappa i <> 0.
Hypothesis L_sun_nonzero : Inputs.L_sun_value i <> 0.
Hypothesis lfir_sun_pos : 0 < y.
Hypothesis redshift_ok : 1 + z <> 0.
Hypothesis cube_ok : cube_in_range z.

Lemma pipeline_value :
  exists d,
    pipeline i = Ok d /\
    Derived.lfir d = Inputs.sfr i / Inputs.kappa i /\
    Derived.lco_diff_units d = Finite x /\
    Derived.freq1 d = Finite (345.795989 / (1 + z)) /\
    Derived.lco_32_lens d =
      Finite (Inputs.magnification i * (x * Inputs.ratio i)) /\
    Derived.flux_s d =
      np.true_divide (Finite numerator) (Finite (dl * dl * 3.25e7)) /\
    Derived.flux_density d =
      np.true_divide (Derived.flux_s d)
        (Finite (Inputs.velocity_dispersion i)) /\
    Derived.mass_h2 d = Finite (x * Inputs.alpha_CO i) /\
    Derived.obs_freq d = obs_freq rest_frame z.
Proof.
  unfold pipeline, lfir, lfir_sun, lsun. cbn [np.multiply].
  rewrite float_truediv_nonzero by assumption.
  rewrite (true_divide_finite (Inputs.sfr i / Inputs.kappa i)) by lra.
  rewrite freq1_obs_freq.
  rewrite float_pow_in_range by exact cube_ok.
  rewrite logco_positive by exact lfir_sun_pos.
  rewrite true_divide_finite by exact redshift_ok.
  eexists. split; [reflexivity|].
  cbn. repeat split; reflexivity.
Qed.

End Run_values.

(** ** Outside the domain: no stage checks its arguments *)

Lemma sgn_eq_zero (r : R) : r = 0 -> sgn r = Zero.
Proof. intros ->. apply sgn_zero. Qed.

Lemma true_divide_pos_zero (a : R) :
  0 < a -> np.true_divide (Finite a) (Finite 0) = PosInf.
Proof.
  intros Ha. unfold np.true_divide. rewrite sgn_zero, (sgn_pos a Ha).
  reflexivity.
Qed.









(** ** The reference scenario *)

Lemma INR_113 : INR 113 = 113.
Proof. rewrite INR_IZR_INZ. reflexivity. Qed.

Lemma INR_53 : INR 53 = 53.
Proof. rewrite INR_IZR_INZ. reflexivity. Qed.

Lemma INR_100 : INR 100 = 100.
Proof. rewrite INR_IZR_INZ. reflexivity. Qed.

(** The relation of Carilli and Walter, [log L_IR = 1.13 log L'_CO + 0.53],
    cleared of fractions. *)
Lemma ln_carilli_walter (y : R) :
  113 * ln (carilli_walter y) + 53 * ln 10 = 100 * ln y.
Proof.
  unfold carilli_walter. rewrite ln_Rpower. unfold Rlog.
  pose proof ln_10_pos.
  replace 0.53 with (53 / 100) by lra.
  replace 1.13 with (113 / 100) by lra.
  field. lra.
Qed.

Lemma carilli_walter_lower (a y : R) :
  0 < a -> 0 < y -> a ^ 113 * 10 ^ 53 <= y ^ 100 -> a <= carilli_walter y.
Proof.
  intros Ha Hy Hle.
  destruct (Rle_or_lt a (carilli_walter y)) as [H|H]; [exact H|exfalso].
  apply ln_increasing in H; [|apply carilli_walter_pos].
  assert (Hlt : ln (y ^ 100) < ln (a ^ 113 * 10 ^ 53)).
  { rewrite ln_mult by (apply pow_lt; lra).
    rewrite !ln_pow by lra. rewrite INR_113, INR_53, INR_100.
    pose proof (ln_carilli_walter y). lra. }
  apply ln_lt_inv in Hlt; [lra | apply pow_lt; lra |].
  apply Rmult_lt_0_compat; apply pow_lt; lra.
Qed.

Lemma carilli_walter_upper (b y : R) :
  0 < b -> 0 < y -> y ^ 100 <= b ^ 113 * 10 ^ 53 -> carilli_walter y <= b.
Proof.
  intros Hb Hy Hle.
  destruct (Rle_or_lt (carilli_walter y) b) as [H|H]; [exact H|exfalso].
  apply ln_increasing in H; [|exact Hb].
  assert (Hlt : ln (b ^ 113 * 10 ^ 53) < ln (y ^ 100)).
  { rewrite ln_mult by (apply pow_lt; lra).
    rewrite !ln_pow by lra. rewrite INR_113, INR_53, INR_100.
    pose proof (ln_carilli_walter y). lra. }
  apply ln_lt_inv in Hlt; [lra | | apply pow_lt; lra].
  apply Rmult_lt_0_compat; apply pow_lt; lra.
Qed.

(** Comparing the powers of rationals through integers. *)
Lemma pow_ratio_ge (a p q : Z) :
  (0 < q)%Z ->
  (a ^ 113 * 10 ^ 53 * q ^ 100 <= p ^ 100)%Z ->
  IZR a ^ 113 * 10 ^ 53 <= (IZR p / IZR q) ^ 100.
Proof.
  intros Hq Hle.
  assert (HqR : 0 < IZR q) by (apply IZR_lt in Hq; exact Hq).
  assert (Hq100 : 0 < IZR q ^ 100) by (apply pow_lt; exact HqR).
  unfold Rdiv. rewrite Rpow_mult_distr, pow_inv.
  apply Rmult_le_reg_r with (IZR q ^ 100); [exact Hq100|].
  replace (IZR p ^ 100 * / IZR q ^ 100 * IZR q ^ 100) with (IZR p ^ 100)
    by (field; lra).
  apply IZR_le in Hle.
  rewrite !mult_IZR in Hle.
  change 113%Z with (Z.of_nat 113) in Hle.
  change 53%Z with (Z.of_nat 53) in Hle.
  change 100%Z with (Z.of_nat 100) in Hle.
  rewrite <- !pow_IZR in Hle. exact Hle.
Qed.

Lemma pow_ratio_le (b p q : Z) :
  (0 < q)%Z ->
  (p ^ 100 <= b ^ 113 * 10 ^ 53 * q ^ 100)%Z ->
  (IZR p / IZR q) ^ 100 <= IZR b ^ 113 * 10 ^ 53.
Proof.
  intros Hq Hle.
  assert (HqR : 0 < IZR q) by (apply IZR_lt in Hq; exact Hq).
  assert (Hq100 : 0 < IZR q ^ 100) by (apply pow_lt; exact HqR).
  unfold Rdiv. rewrite Rpow_mult_distr, pow_inv.
  apply Rmult_le_reg_r with (IZR q ^ 100); [exact Hq100|].
  replace (IZR p ^ 100 * / IZR q ^ 100 * IZR q ^ 100) with (IZR p ^ 100)
    by (field; lra).
  apply IZR_le in Hle.
  rewrite !mult_IZR in Hle.
  change 113%Z with (Z.of_nat 113) in Hle.
  change 53%Z with (Z.of_nat 53) in Hle.
  change 100%Z with (Z.of_nat 100) in Hle.
  rewrite <- !pow_IZR in Hle. exact Hle.
Qed.

(** The CO(1-0) luminosity of the reference scenario: 3.01e9 K km/s pc^2. *)
Lemma reference_lco_diff_units :
  3010960000 <= carilli_walter (30 / 4.5e-44 / (3.828e26 * 1e7)) <= 3010970000.
Proof.
  replace (30 / 4.5e-44 / (3.828e26 * 1e7))
    with (IZR 3000000000000000 / IZR 17226) by lra.
  split.
  - apply carilli_walter_lower; [lra|lra|].
    apply pow_ratio_ge; [lia|]. vm_compute. discriminate.
  - apply carilli_walter_upper; [lra|lra|].
    apply pow_ratio_le; [lia|]. vm_compute. discriminate.
Qed.

Lemma div_bounds (n d lo hi : R) :
  0 < d -> lo * d <= n -> n <= hi * d -> lo <= n / d <= hi.
Proof.
  intros Hd Hlo Hhi.
  assert (Hi : 0 < / d) by (apply Rinv_0_lt_compat; exact Hd).
  unfold Rdiv. split.
  - replace lo with (lo * d * / d) by (field; lra).
    apply Rmult_le_compat_r; lra.
  - replace hi with (hi * d * / d) by (field; lra).
    apply Rmult_le_compat_r; lra.
Qed.

(** C9: in the reference scenario (sfr = 30, kappa = 4.5e-44, z = 1.036,
    line ratio 0.6, magnification 4.3, velocity dispersion 200), with the
    solar luminosity of 3.828e26 W and a luminosity distance at z = 1.036
    between 7092 and 7098 Mpc (Planck15 gives 7094.5), the run leaves
    [lfir] = 6.67e44 erg/s, an observed CO(3-2) frequency of 169.84 GHz,
    [flux_s] = 1.16 Jy km/s and [flux_density] = 5.78e-3 Jy, each to the
    last digit given. *)
Theorem reference_scenario (cosmo : R -> R) (ns : namespace) :
  7092 <= cosmo 1.036 <= 7098 ->
  exists ns1 L_IR obs nu S_dV S,
    run_all (notebook 3.828e26 cosmo) ns = Ok (tt, ns1) /\
    ns1 !! "lfir" = Some (PyFloat L_IR) /\
    Rabs (L_IR - 6.67e44) <= 0.005e44 /\
    ns1 !! "obs_freq" = Some (NpArray obs) /\
    nth_error lines 2 = Some "CO32"%string /\
    nth_error obs 2 = Some (Finite nu) /\
    ns1 !! "freq1" = Some (NpFloat (Finite nu)) /\
    Rabs (nu - 169.84) <= 0.005 /\
    ns1 !! "flux_s" = Some (NpFloat (Finite S_dV)) /\
    Rabs (S_dV - 1.16) <= 0.005 /\
    ns1 !! "flux_density" = Some (NpFloat (Finite S)) /\
    Rabs (S - 5.78e-3) <= 0.005e-3.
Proof.
  intros Hdl.
  destruct (pipeline_value (notebook 3.828e26 cosmo))
    as (d & Hd & Hlfir & _ & Hfreq & _ & Hs & Hf & _ & Hobs).
  { unfold notebook; fields; lra. }
  { unfold notebook; fields; lra. }
  { unfold notebook; fields. apply Rdiv_lt_0_compat; lra. }
  { unfold notebook; fields; lra. }
  { apply cube_in_range_small. unfold notebook; fields.
    apply Rabs_le. lra. }
  unfold notebook in Hlfir, Hfreq, Hs, Hf, Hobs. cbn [Inputs.sfr Inputs.kappa
    Inputs.L_sun_value Inputs.redshift Inputs.ratio Inputs.magnification
    Inputs.luminosity_distance Inputs.velocity_dispersion] in *.
  pose proof reference_lco_diff_units as Hx.
  set (x := carilli_walter _) in *.
  set (dl := cosmo 1.036) in *.
  assert (HD : 7092 * 7092 <= dl * dl <= 7098 * 7098) by nra.
  set (D := dl * dl) in *.
  rewrite true_divide_finite in Hs by lra.
  rewrite Hs, true_divide_finite in Hf by lra.
  match type of Hs with _ = Finite ?v => set (S_dV := v) in * end.
  assert (HS : 1.155 <= S_dV <= 1.157).
  { apply div_bounds; lra. }
  exists (store (notebook 3.828e26 cosmo) d ns), (30 / 4.5e-44).
  exists (obs_freq rest_frame 1.036), (345.795989 / (1 + 1.036)).
  exists S_dV, (S_dV / 200).
  rewrite run_all_pipeline, Hd.
  rewrite store_lfir, store_obs_freq, store_freq1, store_flux_s.
  rewrite store_flux_density, Hlfir, Hobs, Hfreq, Hs, Hf.
  repeat split; try reflexivity.
  - apply Rabs_le. lra.
  - cbn [obs_freq rest_frame map nth_error].
    rewrite true_divide_finite by lra. reflexivity.
  - apply Rabs_le. lra.
  - apply Rabs_le. lra.
  - apply Rabs_le. lra.
Qed.

Lemma reference_scenario_witness :
  exists ns1 L_IR obs nu S_dV S,
    run_all (notebook 3.828e26 (fun _ => 7094.5)) ∅ = Ok (tt, ns1) /\
    ns1 !! "lfir" = Some (PyFloat L_IR) /\
    Rabs (L_IR - 6.67e44) <= 0.005e44 /\
    ns1 !! "obs_freq" = Some (NpArray obs) /\
    nth_error lines 2 = Some "CO32"%string /\
    nth_error obs 2 = Some (Finite nu) /\
    ns1 !! "freq1" = Some (NpFloat (Finite nu)) /\
    Rabs (nu - 169.84) <= 0.005 /\
    ns1 !! "flux_s" = Some (NpFloat (Finite S_dV)) /\
    Rabs (S_dV - 1.16) <= 0.005 /\
    ns1 !! "flux_density" = Some (NpFloat (Finite S)) /\
    Rabs (S - 5.78e-3) <= 0.005e-3.
Proof.
  apply (reference_scenario (fun _ => 7094.5) ∅). lra.
Defined.

(** * Further properties of the conversion chain *)

(** ** The relations the cells invert *)

(** The relation of Kennicutt (1998), [SFR = kappa * L_FIR]: what In [2]
    returns satisfies it, for a conversion factor of any sign. *)
Theorem kennicutt_round_trip (sfr kappa : R) :
  kappa <> 0 ->
  exists L, Stage.infrared_luminosity sfr kappa = Ok L /\ kappa * L = sfr.
Proof.
  intros Hk. exists (sfr / kappa). split.
  - apply float_truediv_nonzero, Hk.
  - field. exact Hk.
Qed.

Lemma kennicutt_round_trip_witness :
  exists L, Stage.infrared_luminosity 30 4.5e-44 = Ok L /\ 4.5e-44 * L = 30.
Proof.
  apply (kennicutt_round_trip 30 4.5e-44). lra.
Defined.

Lemma Rlog_10_Rpower (e : R) : Rlog 10 (Rpower 10 e) = e.
Proof.
  unfold Rlog. rewrite ln_Rpower. field.
  pose proof ln_10_pos. lra.
Qed.

(** The relation of Carilli and Walter (2013),
    [log L_IR = 1.13 log L'_CO + 0.53] with [L_IR] in solar units: the
    luminosity In [3] returns is positive and satisfies it. *)
Theorem carilli_walter_round_trip (L_IR L_sun : R) :
  0 < L_IR -> 0 < L_sun ->
  exists L_CO,
    Stage.co_luminosity_10 L_IR L_sun = Ok (Finite L_CO) /\
    0 < L_CO /\
    Rlog 10 (L_IR / L_sun) = 1.13 * Rlog 10 L_CO + 0.53.
Proof.
  intros HL Hs. eexists. split; [apply co_luminosity_10_value; assumption|].
  split; [apply carilli_walter_pos|].
  rewrite Rlog_10_Rpower. lra.
Qed.

Lemma carilli_walter_round_trip_witness :
  exists L_CO,
    Stage.co_luminosity_10 6.67e44 3.828e33 = Ok (Finite L_CO) /\
    0 < L_CO /\
    Rlog 10 (6.67e44 / 3.828e33) = 1.13 * Rlog 10 L_CO + 0.53.
Proof.
  apply (carilli_walter_round_trip 6.67e44 3.828e33); lra.
Defined.



(** ** How the stages compose *)





(** In [3]: the CO luminosity is a power law of the infrared luminosity,
    of exponent [1/1.13]: scaling [L_IR] by [k] scales it by [k^(1/1.13)]. *)
Theorem co_luminosity_power_law (L_IR L_sun k : R) :
  0 < L_IR -> 0 < L_sun -> 0 < k ->
  exists a b,
    Stage.co_luminosity_10 L_IR L_sun = Ok (Finite a) /\
    Stage.co_luminosity_10 (k * L_IR) L_sun = Ok (Finite b) /\
    b = Rpower k (/ 1.13) * a.
Proof.
  intros HL Hs Hk.
  assert (HkL : 0 < k * L_IR) by (apply Rmult_lt_0_compat; assumption).
  assert (Hy : 0 < L_IR / L_sun) by (apply Rdiv_lt_0_compat; assumption).
  eexists _, _.
  split; [apply co_luminosity_10_value; assumption|].
  split; [apply co_luminosity_10_value; assumption|].
  unfold Rpower, Rlog. rewrite <- exp_plus. f_equal.
  replace (k * L_IR / L_sun) with (k * (L_IR / L_sun)) by (field; lra).
  rewrite ln_mult by assumption.
  pose proof ln_10_pos. field. lra.
Qed.

Lemma co_luminosity_power_law_witness :
  exists a b,
    Stage.co_luminosity_10 1 1 = Ok (Finite a) /\
    Stage.co_luminosity_10 (2 * 1) 1 = Ok (Finite b) /\
    b = Rpower 2 (/ 1.13) * a.
Proof.
  apply (co_luminosity_power_law 1 1 2); lra.
Defined.

(** ** Exceptions of a run *)

Lemma pipeline_zero_kappa (i : Inputs.t) :
  Inputs.kappa i = 0 -> pipeline i = Raise ZeroDivisionError.
Proof.
  intros Hk. unfold pipeline, lfir. rewrite Hk, float_truediv_zero.
  reflexivity.
Qed.

Lemma pipeline_overflow (i : Inputs.t) :
  Inputs.kappa i <> 0 -> ~ cube_in_range (Inputs.redshift i) ->
  pipeline i = Raise OverflowError.
Proof.
  intros Hk Hz. unfold pipeline, lfir.
  rewrite float_truediv_nonzero by exact Hk.
  rewrite freq1_obs_freq, float_pow_overflow; [reflexivity|].
  unfold cube_in_range in Hz. lra.
Qed.

(** Run All raises [ZeroDivisionError] exactly when [kappa] is zero, and
    [OverflowError] exactly when [kappa] is not zero and [(1+redshift)**3]
    exceeds the largest binary64 number.  It raises nothing else: a solar
    luminosity of zero is divided by in numpy, and no input makes a cell
    raise a [NameError], a [TypeError] or an [IndexError]. *)
Theorem run_all_raises_iff (i : Inputs.t) (ns : namespace) :
  (run_all i ns = Raise ZeroDivisionError <-> Inputs.kappa i = 0) /\
  (run_all i ns = Raise OverflowError <->
   Inputs.kappa i <> 0 /\ ~ cube_in_range (Inputs.redshift i)) /\
  (forall e,
     run_all i ns = Raise e -> e = ZeroDivisionError \/ e = OverflowError).
Proof.
  rewrite run_all_pipeline.
  assert (Hinv : forall e,
             match pipeline i with
             | Ok d => Ok (tt, store i d ns)
             | Raise e' => Raise e'
             end = Raise e -> pipeline i = Raise e).
  { intros e. destruct (pipeline i) as [d|e']; [discriminate|].
    intros [= ->]. reflexivity. }
  split; [|split].
  - split.
    + intros He. apply Hinv in He.
      destruct (pipeline_raises i _ He) as [[_ Hk]|[Hne _]];
        [exact Hk | discriminate Hne].
    + intros Hk. rewrite pipeline_zero_kappa by exact Hk. reflexivity.
  - split.
    + intros He. apply Hinv in He.
      destruct (pipeline_raises i _ He) as [[Hne _]|(_ & Hk & Hz)];
        [discriminate Hne | auto].
    + intros [Hk Hz]. rewrite pipeline_overflow by assumption. reflexivity.
  - intros e He. apply Hinv in He.
    destruct (pipeline_raises i _ He) as [[-> _]|[-> _]]; auto.
Qed.

(** ** What a run does to the namespace *)

Lemma store_frame
  (i : Inputs.t) (d : Derived.t) (ns : namespace) (name : string) :
  ~ In name assigned -> store i d ns !! name = ns !! name.
Proof.
  intros Hout. unfold store.
  rewrite !lookup_insert.
  repeat (case_decide;
          [exfalso; apply Hout; subst name; unfold assigned; cbn [In]; tauto|]).
  reflexivity.
Qed.

Lemma store_bound
  (i : Inputs.t) (d : Derived.t) (ns : namespace) (name : string) :
  In name assigned -> is_Some (store i d ns !! name).
Proof.
  intros Hin. unfold store.
  rewrite !lookup_insert. repeat (case_decide; [eauto|]).
  exfalso. unfold assigned in Hin. cbn [In] in Hin.
  repeat (destruct Hin as [Hin|Hin]; [congruence|]). exact Hin.
Qed.

(** A run binds every name the cells assign and leaves every other
    variable of the kernel as it was. *)
Theorem run_all_frame (i : Inputs.t) (ns ns1 : namespace) :
  run_all i ns = Ok (tt, ns1) ->
  forall name,
    (In name assigned -> is_Some (ns1 !! name)) /\
    (~ In name assigned -> ns1 !! name = ns !! name).
Proof.
  intros Hrun name.
  destruct (run_all_inv i ns ns1 Hrun) as (d & _ & ->).
  split; [apply store_bound | apply store_frame].
Qed.

Lemma run_all_frame_witness :
  exists ns1,
    run_all (notebook 3.828e26 (fun _ => 7094.5))
      (<["x" := PyFloat 1]> ∅) = Ok (tt, ns1) /\
    is_Some (ns1 !! "mass_h2") /\
    ns1 !! "x" = Some (PyFloat 1).
Proof.
  destruct (run_all_returns (notebook 3.828e26 (fun _ => 7094.5))
              (<["x" := PyFloat 1]> ∅))
    as [ns1 Hrun];
    [cbn [notebook Inputs.kappa]; lra
    |apply cube_in_range_small; cbn [notebook Inputs.redshift];
     apply Rabs_le; lra |].
  exists ns1. split; [exact Hrun|].
  pose proof (run_all_frame _ _ _ Hrun) as Hframe. split.
  - apply (Hframe "mass_h2"). unfold assigned. cbn [In]. tauto.
  - rewrite (proj2 (Hframe "x")); [reflexivity|].
    unfold assigned. cbn [In]. intros H.
    repeat (destruct H as [H|H]; [discriminate H|]). exact H.
Defined.

(** A cell run before the cells it depends on raises a [NameError] for the
    first variable it reads that is not bound. *)
Theorem cells_out_of_order (i : Inputs.t) (ns : namespace) :
  (ns !! "lfir" = None -> cell_3 i ns = Raise (NameError "lfir")) /\
  (ns !! "lco_diff_units" = None ->
   cell_5 i ns = Raise (NameError "lco_diff_units")) /\
  (ns !! "lco_32" = None -> cell_6 i ns = Raise (NameError "lco_32")) /\
  (ns !! "redshift" = None -> cell_7 i ns = Raise (NameError "redshift")) /\
  (ns !! "flux_s" = None -> cell_8 i ns = Raise (NameError "flux_s")) /\
  (ns !! "lco_diff_units" = None ->
   cell_9 i ns = Raise (NameError "lco_diff_units")).
Proof.
  unfold cell_3, cell_5, cell_6, cell_7, cell_8, cell_9.
  unfold bind, assign, load_float, load_np.
  repeat split; intros Hnone.
  - rewrite lookup_insert_ne by discriminate. rewrite Hnone. reflexivity.
  - rewrite Hnone. reflexivity.
  - rewrite Hnone. reflexivity.
  - rewrite Hnone. reflexivity.
  - rewrite Hnone. reflexivity.
  - rewrite Hnone. reflexivity.
Qed.

Lemma cells_out_of_order_witness :
  cell_3 (notebook 3.828e26 (fun _ => 7094.5)) ∅ = Raise (NameError "lfir") /\
  cell_7 (notebook 3.828e26 (fun _ => 7094.5)) ∅
  = Raise (NameError "redshift").
Proof.
  destruct (cells_out_of_order (notebook 3.828e26 (fun _ => 7094.5)) ∅)
    as (H3 & _ & _ & H7 & _).
  split; [apply H3 | apply H7]; reflexivity.
Defined.

(** ** At the edge of the domain and outside it *)

Lemma store_logco (i : Inputs.t) (d : Derived.t) (ns : namespace) :
  store i d ns !! "logco" = Some (NpFloat (Derived.logco d)).
Proof. unfold store. by simplify_map_eq. Qed.

Lemma store_aa (i : Inputs.t) (d : Derived.t) (ns : namespace) :
  store i d ns !! "aa" = Some (NpFloat (Derived.aa d)).
Proof. unfold store. by simplify_map_eq. Qed.

Lemma multiply_nan_r (x : float64) : np.multiply x NaN = NaN.
Proof. destruct x; reflexivity. Qed.

Lemma float_min_le_1 : float_min <= 1.
Proof.
  unfold float_min. rewrite <- Rinv_1.
  apply Rinv_le_contravar; [lra|]. apply pow_R1_Rle. lra.
Qed.

(** A negative infrared luminosity in solar units (a negative star
    formation rate, say) that does not underflow raises nothing: the
    logarithm gives [nan] and every quantity computed after it is [nan],
    whatever the other inputs are, as long as [(1+redshift)**3] does not
    overflow. *)
Theorem negative_luminosity_gives_nan (i : Inputs.t) (ns : namespace) :
  Inputs.kappa i <> 0 -> Inputs.L_sun_value i <> 0 ->
  Inputs.sfr i / Inputs.kappa i / (Inputs.L_sun_value i * 1e7) < 0 ->
  float_min <= Rabs (Inputs.sfr i / Inputs.kappa i) ->
  float_min <=
    Rabs (Inputs.sfr i / Inputs.kappa i / (Inputs.L_sun_value i * 1e7)) ->
  cube_in_range (Inputs.redshift i) ->
  exists ns1,
    run_all i ns = Ok (tt, ns1) /\
    Forall (fun name => ns1 !! name = Some (NpFloat NaN)) after_log10.
Proof.
  intros Hk Hs Hneg _ _ Hz.
  assert (Hp : exists d,
             pipeline i = Ok d /\ Derived.logco d = NaN /\
             Derived.lco_diff_units d = NaN /\ Derived.lco_32 d = NaN /\
             Derived.lco_32_lens d = NaN /\ Derived.aa d = NaN /\
             Derived.flux_s d = NaN /\ Derived.flux_density d = NaN /\
             Derived.mass_h2 d = NaN).
  { unfold pipeline, lfir, lfir_sun, lsun. cbn [np.multiply].
    rewrite float_truediv_nonzero by exact Hk.
    rewrite (true_divide_finite (Inputs.sfr i / Inputs.kappa i)) by lra.
    rewrite freq1_obs_freq, float_pow_in_range by exact Hz.
    assert (Hlog : logco
                     (Finite
                        (Inputs.sfr i / Inputs.kappa i
                         / (Inputs.L_sun_value i * 1e7))) = NaN).
    { unfold logco, np.log10. rewrite (sgn_neg _ Hneg). reflexivity. }
    rewrite Hlog. eexists. split; [reflexivity|].
    cbn [Derived.logco Derived.lco_diff_units Derived.lco_32
         Derived.lco_32_lens Derived.aa Derived.flux_s Derived.flux_density
         Derived.mass_h2].
    unfold lco_diff_units, lco_32, lco_32_lens, aa, flux_s, flux_density,
      mass_h2.
    cbn [np.power10 np.multiply]. rewrite ?multiply_nan_r.
    cbn [np.multiply np.true_divide]. repeat split; reflexivity. }
  destruct Hp as (d & Hd & H1 & H2 & H3 & H4 & H5 & H6 & H7 & H8).
  exists (store i d ns). rewrite run_all_pipeline, Hd.
  split; [reflexivity|]. unfold after_log10.
  repeat constructor.
  - rewrite store_logco, H1. reflexivity.
  - rewrite store_lco_diff_units, H2. reflexivity.
  - rewrite store_lco_32, H3. reflexivity.
  - rewrite store_lco_32_lens, H4. reflexivity.
  - rewrite store_aa, H5. reflexivity.
  - rewrite store_flux_s, H6. reflexivity.
  - rewrite store_flux_density, H7. reflexivity.
  - rewrite store_mass_h2, H8. reflexivity.
Qed.

Lemma negative_luminosity_gives_nan_witness :
  exists ns1,
    run_all
      (Inputs.make (-30) 4.5e-44 3.828e26 1.036 0.6 4.3 (fun _ => 7094.5)
         200 4) ∅ = Ok (tt, ns1) /\
    Forall (fun name => ns1 !! name = Some (NpFloat NaN)) after_log10.
Proof.
  pose proof float_min_le_1 as Hmin.
  apply (negative_luminosity_gives_nan
           (Inputs.make (-30) 4.5e-44 3.828e26 1.036 0.6 4.3
              (fun _ => 7094.5) 200 4) ∅); fields; try lra.
  - rewrite Rabs_left by lra. lra.
  - rewrite Rabs_left by lra. lra.
  - apply cube_in_range_small, Rabs_le. lra.
Defined.

(** A star formation rate of zero raises nothing either: the logarithm
    gives [-inf], [10**] turns it into [0], and the H2 mass is [0]. *)
Theorem zero_sfr_gives_zero_mass (i : Inputs.t) (ns : namespace) :
  Inputs.kappa i <> 0 -> Inputs.L_sun_value i <> 0 -> Inputs.sfr i = 0 ->
  cube_in_range (Inputs.redshift i) ->
  exists ns1,
    run_all i ns = Ok (tt, ns1) /\
    ns1 !! "logco" = Some (NpFloat NegInf) /\
    ns1 !! "lco_diff_units" = Some (NpFloat (Finite 0)) /\
    ns1 !! "mass_h2" = Some (NpFloat (Finite 0)).
Proof.
  intros Hk Hs Hsfr Hz.
  assert (Hp : exists d,
             pipeline i = Ok d /\ Derived.logco d = NegInf /\
             Derived.lco_diff_units d = Finite 0 /\
             Derived.mass_h2 d = Finite 0).
  { unfold pipeline, lfir, lfir_sun, lsun. cbn [np.multiply].
    rewrite float_truediv_nonzero by exact Hk.
    rewrite (true_divide_finite (Inputs.sfr i / Inputs.kappa i)) by lra.
    rewrite freq1_obs_freq, float_pow_in_range by exact Hz.
    assert (Hlog : logco
                     (Finite
                        (Inputs.sfr i / Inputs.kappa i
                         / (Inputs.L_sun_value i * 1e7))) = NegInf).
    { unfold logco, np.log10.
      rewrite sgn_eq_zero by (rewrite Hsfr; unfold Rdiv; ring).
      cbn [np.subtract np.true_divide].
      rewrite (sgn_pos 1.13) by lra. reflexivity. }
    rewrite Hlog. eexists. split; [reflexivity|].
    cbn [Derived.logco Derived.lco_diff_units Derived.mass_h2].
    unfold lco_diff_units, mass_h2. cbn [np.power10 np.multiply].
    repeat split; try reflexivity. f_equal. ring. }
  destruct Hp as (d & Hd & H1 & H2 & H3).
  exists (store i d ns). rewrite run_all_pipeline, Hd.
  rewrite store_logco, store_lco_diff_units, store_mass_h2, H1, H2, H3.
  repeat split; reflexivity.
Qed.

Lemma zero_sfr_gives_zero_mass_witness :
  exists ns1,
    run_all
      (Inputs.make 0 4.5e-44 3.828e26 1.036 0.6 4.3 (fun _ => 7094.5) 200 4)
      ∅ = Ok (tt, ns1) /\
    ns1 !! "logco" = Some (NpFloat NegInf) /\
    ns1 !! "lco_diff_units" = Some (NpFloat (Finite 0)) /\
    ns1 !! "mass_h2" = Some (NpFloat (Finite 0)).
Proof.
  apply (zero_sfr_gives_zero_mass
           (Inputs.make 0 4.5e-44 3.828e26 1.036 0.6 4.3 (fun _ => 7094.5)
              200 4) ∅); fields; try lra.
  apply cube_in_range_small, Rabs_le. lra.
Defined.

Lemma store_lfir_sun (i : Inputs.t) (d : Derived.t) (ns : namespace) :
  store i d ns !! "lfir_sun" = Some (NpFloat (Derived.lfir_sun d)).
Proof. unfold store. by simplify_map_eq. Qed.

(** A solar luminosity of zero raises nothing: [lfir/lsun] is a division
    by a numpy scalar, so a positive infrared luminosity (one that does not
    underflow) gives [lfir_sun = inf], and [logco], [lco_diff_units] and,
    for a positive [alpha_CO], [mass_h2] are [inf] too. *)
Theorem zero_L_sun_gives_inf (i : Inputs.t) (ns : namespace) :
  Inputs.kappa i <> 0 -> Inputs.L_sun_value i = 0 ->
  0 < Inputs.sfr i / Inputs.kappa i ->
  float_min <= Inputs.sfr i / Inputs.kappa i ->
  0 < Inputs.alpha_CO i ->
  cube_in_range (Inputs.redshift i) ->
  exists ns1,
    run_all i ns = Ok (tt, ns1) /\
    ns1 !! "lfir_sun" = Some (NpFloat PosInf) /\
    ns1 !! "logco" = Some (NpFloat PosInf) /\
    ns1 !! "lco_diff_units" = Some (NpFloat PosInf) /\
    ns1 !! "mass_h2" = Some (NpFloat PosInf).
Proof.
  intros Hk Hs Hpos _ Ha Hz.
  assert (Hp : exists d,
             pipeline i = Ok d /\ Derived.lfir_sun d = PosInf /\
             Derived.logco d = PosInf /\
             Derived.lco_diff_units d = PosInf /\
             Derived.mass_h2 d = PosInf).
  { unfold pipeline, lfir, lsun. cbn [np.multiply].
    rewrite float_truediv_nonzero by exact Hk.
    rewrite freq1_obs_freq, float_pow_in_range by exact Hz.
    assert (Hdiv : lfir_sun (Inputs.sfr i / Inputs.kappa i)
                     (Finite (Inputs.L_sun_value i * 1e7)) = PosInf).
    { unfold lfir_sun. replace (Inputs.L_sun_value i * 1e7) with 0 by lra.
      apply true_divide_pos_zero, Hpos. }
    rewrite Hdiv. eexists. split; [reflexivity|].
    cbn [Derived.lfir_sun Derived.logco Derived.lco_diff_units
         Derived.mass_h2].
    unfold logco, lco_diff_units, mass_h2.
    cbn [np.log10 np.subtract np.true_divide].
    rewrite (sgn_pos 1.13) by lra. cbn [np.power10 np.multiply].
    rewrite (sgn_pos _ Ha). repeat split; reflexivity. }
  destruct Hp as (d & Hd & H1 & H2 & H3 & H4).
  exists (store i d ns). rewrite run_all_pipeline, Hd.
  rewrite store_lfir_sun, store_logco, store_lco_diff_units, store_mass_h2.
  rewrite H1, H2, H3, H4. repeat split; reflexivity.
Qed.

Lemma zero_L_sun_gives_inf_witness :
  exists ns1,
    run_all
      (Inputs.make 30 4.5e-44 0 1.036 0.6 4.3 (fun _ => 7094.5) 200 4) ∅
    = Ok (tt, ns1) /\
    ns1 !! "lfir_sun" = Some (NpFloat PosInf) /\
    ns1 !! "logco" = Some (NpFloat PosInf) /\
    ns1 !! "lco_diff_units" = Some (NpFloat PosInf) /\
    ns1 !! "mass_h2" = Some (NpFloat PosInf).
Proof.
  pose proof float_min_le_1 as Hmin.
  apply (zero_L_sun_gives_inf
           (Inputs.make 30 4.5e-44 0 1.036 0.6 4.3 (fun _ => 7094.5) 200 4)
           ∅); fields; try lra.
  apply cube_in_range_small, Rabs_le. lra.
Defined.

(** At a redshift of [-1] the divisor [1 + redshift] is zero: every
    observed frequency is [inf], and the flux computed from one is [nan]
    for every line luminosity and distance.  Nothing is raised. *)
Theorem redshift_minus_one (L : float64) (d : R) :
  Forall (fun nu => nu = PosInf) (Stage.select_observing_line (-1)) /\
  Stage.flux_density_integrated L PosInf (-1) d = NaN.
Proof.
  assert (H0 : sgn (1 + -1) = Zero) by (apply sgn_eq_zero; lra).
  split.
  - unfold Stage.select_observing_line, obs_freq, rest_frame.
    cbn [map]. unfold np.true_divide. rewrite H0.
    repeat (constructor; [rewrite sgn_pos by lra; reflexivity|]).
    constructor.
  - unfold Stage.flux_density_integrated, flux_s, aa.
    assert (H3 : sgn ((1 + -1) ^ 3) = Zero) by (apply sgn_eq_zero; lra).
    destruct L as [a| | |]; cbn [np.multiply]; try destruct (sgn a);
      cbn [np.multiply]; rewrite ?H3; reflexivity.
Qed.

Lemma observed_lt (c u v : R) :
  0 < c -> 0 < u -> u < v -> 0 < c / v < c / u.
Proof.
  intros Hc Hu Huv. split.
  - apply Rdiv_lt_0_compat; lra.
  - unfold Rdiv. apply Rmult_lt_compat_l; [exact Hc|].
    apply Rinv_lt_contravar; [nra | exact Huv].
Qed.

(** Every line of the table is observed at a lower, still positive
    frequency at the higher of two redshifts above [-1]. *)
Theorem observed_frequency_decreasing (z1 z2 : R) :
  0 < 1 + z1 -> z1 < z2 ->
  Forall2
    (fun nu1 nu2 =>
       exists a b, nu1 = Finite a /\ nu2 = Finite b /\ 0 < b < a)
    (Stage.select_observing_line z1) (Stage.select_observing_line z2).
Proof.
  intros Hz1 Hz.
  unfold Stage.select_observing_line, obs_freq, rest_frame. cbn [map].
  rewrite !true_divide_finite by lra.
  repeat
    (constructor;
     [eexists _, _; split; [reflexivity|]; split; [reflexivity|];
      apply observed_lt; lra |]).
  constructor.
Qed.

Lemma observed_frequency_decreasing_witness :
  Forall2
    (fun nu1 nu2 =>
       exists a b, nu1 = Finite a /\ nu2 = Finite b /\ 0 < b < a)
    (Stage.select_observing_line 1.036) (Stage.select_observing_line 2).
Proof.
  apply (observed_frequency_decreasing 1.036 2); lra.
Defined.

(** ** The loop that prints the table *)

Lemma skipn_nth_error {A} (l : list A) (k : nat) (x : A) :
  nth_error l k = Some x -> skipn k l = x :: skipn (S k) l.
Proof.
  revert k. induction l as [|y l IH]; intros [|k] Hk; try discriminate.
  - injection Hk as ->. reflexivity.
  - cbn [nth_error] in Hk. cbn [skipn]. exact (IH k Hk).
Qed.

Lemma print_rows_seq (lines : list string) (obs : list float64) (n k : nat) :
  (k + n = length lines)%nat -> (k <= length obs)%nat ->
  print_rows lines obs (seq k n) =
  (combine (skipn k lines) (skipn k obs),
   if (length lines <=? length obs)%nat then None else Some IndexError).
Proof.
  revert k. induction n as [|n IH]; intros k Hlen Hobs.
  - cbn [seq print_rows].
    rewrite (skipn_all2 lines) by lia. cbn [combine].
    destruct (Nat.leb_spec (length lines) (length obs)) as [_|Hlt];
      [reflexivity | lia].
  - cbn [seq print_rows]. unfold row.
    destruct (nth_error lines k) as [l|] eqn:Hl.
    2:{ apply nth_error_None in Hl. lia. }
    rewrite (skipn_nth_error lines k l Hl).
    destruct (nth_error obs k) as [f|] eqn:Hf.
    + rewrite (skipn_nth_error obs k f Hf).
      assert (Hk : (k < length obs)%nat)
        by (apply nth_error_Some; congruence).
      rewrite (IH (S k)) by lia. reflexivity.
    + apply nth_error_None in Hf.
      rewrite (skipn_all2 obs) by lia. cbn [combine].
      destruct (Nat.leb_spec (length lines) (length obs)) as [Hle|_];
        [lia | reflexivity].
Qed.

(** The loop prints one row per line, pairing the arrays position by
    position, and ends with an [IndexError] after the last frequency
    exactly when there are fewer frequencies than line names; for the
    arrays of In [4] it prints all seven rows at every redshift. *)
Theorem print_table_rows (names : list string) (obs : list float64) :
  print_table names obs =
  (combine names obs,
   if (length names <=? length obs)%nat then None else Some IndexError) /\
  forall z,
    print_table lines (obs_freq rest_frame z) =
    (combine lines (obs_freq rest_frame z), None).
Proof.
  assert (Hgen : forall (l : list string) (o : list float64),
             print_table l o =
             (combine l o,
              if (length l <=? length o)%nat then None else Some IndexError)).
  { intros l o. unfold print_table.
    rewrite (print_rows_seq l o (length l) 0) by lia. reflexivity. }
  split; [apply Hgen|].
  intros z. rewrite Hgen. reflexivity.
Qed.

(** ** From the inputs to the results *)



(** Run All in closed form.  With [y = sfr / kappa / (L_sun * 1e7)]
    positive and [x = 10^((log10 y - 0.53) / 1.13)], a run leaves
    [mass_h2 = x * alpha_CO] and, for a redshift other than [-1] whose
    [(1+redshift)**3] does not overflow and a luminosity distance [dl] and
    velocity dispersion other than zero,
    [flux_density = magnification * ratio * x * nu_rest^2 * (1 + z)
                    / (3.25e7 * dl^2) / dispersion]. *)
Theorem run_all_closed_form (i : Inputs.t) (ns : namespace) :
  Inputs.kappa i <> 0 -> Inputs.L_sun_value i <> 0 ->
  0 < Inputs.sfr i / Inputs.kappa i / (Inputs.L_sun_value i * 1e7) ->
  1 + Inputs.redshift i <> 0 ->
  cube_in_range (Inputs.redshift i) ->
  Inputs.luminosity_distance i (Inputs.redshift i) <> 0 ->
  Inputs.velocity_dispersion i <> 0 ->
  exists ns1,
    run_all i ns = Ok (tt, ns1) /\
    let x :=
      Rpower 10
        ((Rlog 10
            (Inputs.sfr i / Inputs.kappa i / (Inputs.L_sun_value i * 1e7))
          - 0.53) / 1.13) in
    let dl := Inputs.luminosity_distance i (Inputs.redshift i) in
    ns1 !! "mass_h2" = Some (NpFloat (Finite (x * Inputs.alpha_CO i))) /\
    ns1 !! "flux_density" =
    Some
      (NpFloat
         (Finite
            (Inputs.magnification i * Inputs.ratio i * x * 345.795989 ^ 2
             * (1 + Inputs.redshift i) / (3.25e7 * dl ^ 2)
             / Inputs.velocity_dispersion i))).
Proof.
  intros Hk Hs Hy Hz Hcube Hdl Hv.
  destruct (pipeline_value i Hk Hs Hy Hz Hcube)
    as (d & Hd & _ & _ & _ & _ & Hflux & Hdens & Hmass & _).
  rewrite true_divide_finite in Hflux by nra.
  rewrite Hflux, true_divide_finite in Hdens by exact Hv.
  exists (store i d ns). rewrite run_all_pipeline, Hd.
  split; [reflexivity|]. cbv zeta.
  rewrite store_mass_h2, store_flux_density, Hmass, Hdens.
  split; [reflexivity|]. do 3 f_equal. unfold carilli_walter.
  field. repeat split; assumption || lra.
Qed.

Lemma run_all_closed_form_witness :
  exists ns1,
    run_all (notebook 3.828e26 (fun _ => 7094.5)) ∅ = Ok (tt, ns1) /\
    let x :=
      Rpower 10
        ((Rlog 10 (30 / 4.5e-44 / (3.828e26 * 1e7)) - 0.53) / 1.13) in
    let dl := 7094.5 in
    ns1 !! "mass_h2" = Some (NpFloat (Finite (x * 4))) /\
    ns1 !! "flux_density" =
    Some
      (NpFloat
         (Finite
            (4.3 * 0.6 * x * 345.795989 ^ 2 * (1 + 1.036)
             / (3.25e7 * dl ^ 2) / 200))).
Proof.
  apply (run_all_closed_form (notebook 3.828e26 (fun _ => 7094.5)) ∅);
    unfold notebook; fields; try lra.
  apply cube_in_range_small, Rabs_le. lra.
Defined.

(** * Transits/p3.ipynb: the dictionary of priors *)

Lemma loop_body_done
  (d : Transits.prior_dict) (row : string * string * Transits.pyval) :
  Transits.loop_body d row = Transits.Done (bind_row d row).
Proof.
  destruct row as [[param dist] hyperp].
  unfold Transits.loop_body, Transits.setitem_in, bind_row, row_param.
  cbn [fst snd]. rewrite lookup_insert_eq, insert_insert_eq.
  rewrite lookup_insert_eq, insert_insert_eq. reflexivity.
Qed.

Lemma for_each_done
  (rows : list (string * string * Transits.pyval)) (d : Transits.prior_dict) :
  Transits.for_each d rows = Transits.Done (foldl bind_row d rows).
Proof.
  revert d. induction rows as [|row rows IH]; intros d; [reflexivity|].
  cbn [Transits.for_each foldl]. rewrite loop_body_done. apply IH.
Qed.

Lemma foldl_bind_row_other
  (rows : list (string * string * Transits.pyval)) (d : Transits.prior_dict)
  (p : string) :
  Forall (fun row => row_param row <> p) rows ->
  foldl bind_row d rows !! p = d !! p.
Proof.
  revert d. induction rows as [|row rows IH]; intros d Hall; [reflexivity|].
  apply Forall_cons in Hall as [Hrow Hrows].
  cbn [foldl]. rewrite IH by exact Hrows.
  unfold bind_row. apply lookup_insert_ne, Hrow.
Qed.

Lemma foldl_bind_row_last
  (before after : list (string * string * Transits.pyval))
  (row : string * string * Transits.pyval) (d : Transits.prior_dict) :
  Forall (fun later => row_param later <> row_param row) after ->
  foldl bind_row d (before ++ row :: after) !! row_param row =
  Some (Transits.prior row.1.2 row.2).
Proof.
  intros Hafter. rewrite foldl_app. cbn [foldl].
  rewrite foldl_bind_row_other by exact Hafter.
  unfold bind_row at 1. apply lookup_insert_eq.
Qed.

Lemma foldl_bind_row_is_Some
  (rows : list (string * string * Transits.pyval)) (d : Transits.prior_dict)
  (p : string) :
  is_Some (foldl bind_row d rows !! p) <->
  is_Some (d !! p) \/ Exists (fun row => row_param row = p) rows.
Proof.
  revert d. induction rows as [|row rows IH]; intros d.
  - cbn [foldl]. rewrite Exists_nil. tauto.
  - cbn [foldl]. rewrite IH, Exists_cons. unfold bind_row at 1.
    rewrite lookup_insert_is_Some.
    destruct (decide (row_param row = p)) as [Heq|Hne]; tauto.
Qed.

Lemma nth_error_zip3 {A B C}
  (a : list A) (b : list B) (c : list C) (k : nat) (x : A) (y : B) (z : C) :
  nth_error (Transits.zip3 a b c) k = Some (x, y, z) <->
  nth_error a k = Some x /\ nth_error b k = Some y /\ nth_error c k = Some z.
Proof.
  revert b c k.
  induction a as [|x' a IH]; intros [|y' b] [|z' c] [|k];
    cbn [Transits.zip3 nth_error];
    try (split; [discriminate | intros (H1 & H2 & H3); discriminate]).
  - split.
    + intros [= -> -> ->]. auto.
    + intros ([= ->] & [= ->] & [= ->]). reflexivity.
  - apply IH.
Qed.

Lemma length_zip3 {A B C} (a : list A) (b : list B) (c : list C) :
  length (Transits.zip3 a b c) =
  Nat.min (length a) (Nat.min (length b) (length c)).
Proof.
  revert b c. induction a as [|x a IH]; intros [|y b] [|z c];
    cbn [Transits.zip3 length]; try reflexivity; try lia.
  rewrite IH. lia.
Qed.

Lemma lookup_nth_error {A} (l : list A) (k : nat) : l !! k = nth_error l k.
Proof.
  revert k. induction l as [|x l IH]; intros [|k]; try reflexivity.
  apply IH.
Qed.

Lemma prior_fields (dist : string) (hyperp : Transits.pyval) :
  Transits.prior dist hyperp !! "distribution" = Some (Transits.Str dist) /\
  Transits.prior dist hyperp !! "hyperparameters" = Some hyperp /\
  size (Transits.prior dist hyperp) = 2%nat.
Proof.
  unfold Transits.prior. split; [|split].
  - rewrite lookup_insert_ne by discriminate. apply lookup_insert_eq.
  - apply lookup_insert_eq.
  - rewrite map_size_insert_None.
    + rewrite map_size_insert_None by apply lookup_empty.
      rewrite map_size_empty. reflexivity.
    + rewrite lookup_insert_ne by discriminate. apply lookup_empty.
Qed.

(** The dictionary binds a parameter to the distribution and the
    hyperparameters at its position in the lists, in an inner dictionary of
    exactly these two fields, provided the name does not come again later
    within the zipped range: of two rows for one name the last one wins. *)
Theorem priors_lookup
  (ps ds : list string) (hs : list Transits.pyval)
  (k : nat) (p dist : string) (hyperp : Transits.pyval) :
  nth_error ps k = Some p ->
  nth_error ds k = Some dist ->
  nth_error hs k = Some hyperp ->
  (forall j,
     (k < j)%nat -> (j < length ds)%nat -> (j < length hs)%nat ->
     nth_error ps j <> Some p) ->
  exists d e,
    Transits.build_priors ps ds hs = Transits.Done d /\
    d !! p = Some e /\
    e !! "distribution" = Some (Transits.Str dist) /\
    e !! "hyperparameters" = Some hyperp /\
    size e = 2%nat.
Proof.
  intros Hp Hd Hh Hlast.
  unfold Transits.build_priors. rewrite for_each_done.
  eexists _, (Transits.prior dist hyperp). split; [reflexivity|].
  split; [|apply prior_fields].
  assert (Hrow : nth_error (Transits.zip3 ps ds hs) k
                 = Some (p, dist, hyperp))
    by (apply nth_error_zip3; auto).
  destruct (nth_error_split _ _ Hrow) as (before & after & Hrows & Hlen).
  rewrite Hrows.
  apply (foldl_bind_row_last before after (p, dist, hyperp)).
  apply Forall_forall. intros [[p' d'] h'] Hin.
  apply list_elem_of_lookup in Hin as [m Hm].
  rewrite lookup_nth_error in Hm.
  assert (Hj : nth_error (Transits.zip3 ps ds hs) (k + S m)
               = Some (p', d', h')).
  { rewrite Hrows, nth_error_app2 by lia.
    replace (k + S m - length before)%nat with (S m) by lia. exact Hm. }
  apply nth_error_zip3 in Hj as (Hp' & Hd' & Hh').
  unfold row_param. cbn [fst]. intros ->.
  apply (Hlast (k + S m)%nat); [lia | | | exact Hp'].
  - apply nth_error_Some. congruence.
  - apply nth_error_Some. congruence.
Qed.

Lemma priors_lookup_witness :
  exists d e,
    Transits.pri1 = Transits.Done d /\
    d !! "t0_p1" = Some e /\
    e !! "distribution" = Some (Transits.Str "normal") /\
    e !! "hyperparameters" = Some (Transits.NumList [58423.10; 0.1]) /\
    size e = 2%nat.
Proof.
  apply (priors_lookup Transits.params Transits.dists Transits.hyperps 1);
    try reflexivity.
  intros j Hj _ _.
  do 12 (destruct j as [|j]; [lia || (cbn; discriminate)|]).
  destruct j; discriminate.
Defined.

(** A name given twice keeps its second row. *)
Example priors_duplicate :
  exists d e,
    Transits.build_priors ["a"; "a"] ["fixed"; "normal"]
      [Transits.Num 1; Transits.NumList [0; 1]] = Transits.Done d /\
    d !! "a" = Some e /\
    e !! "distribution" = Some (Transits.Str "normal").
Proof.
  eexists _, _. split.
  - unfold Transits.build_priors. rewrite for_each_done. reflexivity.
  - cbn [Transits.zip3 foldl]. unfold bind_row, row_param. cbn [fst snd].
    split; [apply lookup_insert_eq | apply prior_fields].
Qed.

(** The loop never raises a [KeyError], and the names the dictionary binds
    are those at a position all three lists have: [zip] drops what lies
    beyond the shortest list. *)
Theorem priors_keys (ps ds : list string) (hs : list Transits.pyval) :
  exists d,
    Transits.build_priors ps ds hs = Transits.Done d /\
    forall p,
      is_Some (d !! p) <->
      exists k dist hyperp,
        nth_error ps k = Some p /\ nth_error ds k = Some dist /\
        nth_error hs k = Some hyperp.
Proof.
  unfold Transits.build_priors. rewrite for_each_done.
  eexists. split; [reflexivity|]. intros p.
  rewrite foldl_bind_row_is_Some, lookup_empty, Exists_exists. split.
  - intros [[x Hx]|([[p' dist] hyperp] & Hin & Heq)]; [discriminate|].
    unfold row_param in Heq. cbn [fst] in Heq. subst p'.
    apply list_elem_of_lookup in Hin as [k Hk].
    rewrite lookup_nth_error in Hk.
    exists k, dist, hyperp. apply nth_error_zip3, Hk.
  - intros (k & dist & hyperp & Hk). right.
    exists (p, dist, hyperp). split; [|reflexivity].
    apply list_elem_of_lookup. exists k.
    rewrite lookup_nth_error. apply nth_error_zip3, Hk.
Qed.

Lemma size_foldl_bind_row
  (rows : list (string * string * Transits.pyval)) (d : Transits.prior_dict) :
  NoDup (map row_param rows) ->
  Forall (fun row => d !! row_param row = None) rows ->
  size (foldl bind_row d rows) = (size d + length rows)%nat.
Proof.
  revert d. induction rows as [|row rows IH]; intros d Hnodup Hfresh.
  - cbn [foldl length]. lia.
  - cbn [map] in Hnodup. apply NoDup_cons in Hnodup as [Hnotin Hnodup].
    apply Forall_cons in Hfresh as [Hrow Hrows].
    cbn [foldl length]. rewrite IH; [| exact Hnodup |].
    + unfold bind_row. rewrite map_size_insert_None by exact Hrow. lia.
    + apply Forall_forall. intros later Hin.
      unfold bind_row. rewrite lookup_insert_ne.
      * rewrite Forall_forall in Hrows. apply Hrows, Hin.
      * intros Heq. apply Hnotin. rewrite Heq.
        apply list_elem_of_fmap. exists later. auto.
Qed.

Lemma map_row_param_zip3 (ps ds : list string) (hs : list Transits.pyval) :
  map row_param (Transits.zip3 ps ds hs) =
  take (length (Transits.zip3 ps ds hs)) ps.
Proof.
  revert ds hs. induction ps as [|p ps IH]; intros [|d ds] [|h hs];
    try reflexivity.
  cbn [Transits.zip3 map length take]. rewrite IH. reflexivity.
Qed.

(** With parameter names all distinct, the dictionary has as many entries
    as the shortest of the three lists has elements. *)
Theorem priors_size (ps ds : list string) (hs : list Transits.pyval) :
  NoDup ps ->
  exists d,
    Transits.build_priors ps ds hs = Transits.Done d /\
    size d = Nat.min (length ps) (Nat.min (length ds) (length hs)).
Proof.
  intros Hnodup. unfold Transits.build_priors. rewrite for_each_done.
  eexists. split; [reflexivity|].
  rewrite size_foldl_bind_row.
  - rewrite map_size_empty, length_zip3. reflexivity.
  - rewrite map_row_param_zip3.
    rewrite <- (take_drop (length (Transits.zip3 ps ds hs)) ps) in Hnodup.
    apply NoDup_app in Hnodup as [Htake _]. exact Htake.
  - apply Forall_forall. intros row _. apply lookup_empty.
Qed.

Lemma priors_size_witness :
  exists d, Transits.pri1 = Transits.Done d /\ size d = 12%nat.
Proof.
  apply (priors_size Transits.params Transits.dists Transits.hyperps).
  unfold Transits.params. compute_done.
Defined.
